(** * forzen-db: the session/connection lifecycle and the SQL builders of
    [src/db.ts], embedded in Rocq.

    The class [ForzenSqliteDb] keeps one mutable field, [db : Database | null],
    and talks to the [sqlite] driver through promises.  The embedding has three
    layers:

    - the data model of the file ([ColumnType], [Column], [TableDefinition],
      entities) and the pure string builders of [createTable] and [insert];
    - a small free monad [Prog] whose nodes are the effects the methods
      perform: reading and writing [this.db], [console.log], awaiting a driver
      promise, and starting an asynchronous call whose promise is dropped;
    - an interpreter [interp] that executes a [Prog] against an SQL engine (an
      arbitrary [Engine]), keeping track of the connections that are open,
      of the order of the driver calls, and of the asynchronous work that was
      started and is still pending. *)

From Stdlib Require Import String Ascii List ZArith Bool Lia PeanoNat.
From Stdlib Require Import DecimalString.
Import ListNotations.
Open Scope string_scope.

(** ** Data model *)

Module Js.

(** The values that travel through [args] and through rows. *)
Inductive JsValue : Type :=
| VUndefined
| VNull
| VBool (b : bool)
| VNum (n : Z)
| VStr (s : string).

(** A plain object: own enumerable properties in enumeration order, that is
    in the order [Object.keys] lists them. *)
Definition JsObject : Type := list (string * JsValue).

(** [Object.keys(o)] *)
Definition keys (o : JsObject) : list string := map fst o.

(** [o[key]]: the value of the property, [undefined] when there is none. *)
Fixpoint lookup (o : JsObject) (key : string) : JsValue :=
  match o with
  | [] => VUndefined
  | (k, v) :: rest => if String.eqb k key then v else lookup rest key
  end.

(** [Array.prototype.join(sep)] on an array of strings. *)
Fixpoint join (sep : string) (l : list string) : string :=
  match l with
  | [] => ""
  | [x] => x
  | x :: rest => x ++ sep ++ join sep rest
  end.

(** The string a template literal substitutes for a value.  [VNum n] stands
    for the number whose value is the integer [n], and its string is the
    decimal expansion of [n]: that is what JavaScript prints for an integer
    of magnitude below [10^21]; from there on JavaScript prints the
    exponent form, which this function does not produce.  The one value the
    code substitutes this way is [entity.tableName], a string by the
    declared type of [Entity]; a number can stand there only in a call that
    goes around that type. *)
Definition to_string (v : JsValue) : string :=
  match v with
  | VUndefined => "undefined"
  | VNull => "null"
  | VBool true => "true"
  | VBool false => "false"
  | VNum n => NilZero.string_of_int (Z.to_int n)
  | VStr s => s
  end.

(** No two properties of an object share a key. *)
Definition well_formed (o : JsObject) : Prop := NoDup (keys o).

End Js.
Import Js.

(** [const DB_NAME = '__FORZENDB__.db'] *)
Definition DB_NAME : string := "__FORZENDB__.db".

(** The line feed of the template literals. *)
Definition LF : string := String (ascii_of_nat 10) "".

(** [enum ColumnType], with the string each member stands for. *)
Inductive ColumnType : Type := INTEGER | TEXT | REAL.

Definition ColumnType_value (t : ColumnType) : string :=
  match t with
  | INTEGER => "INTEGER"
  | TEXT => "TEXT"
  | REAL => "REAL"
  end.

(** [interface Column] *)
Record Column : Type := mkColumn {
  isPrimaryKey : bool;
  name : string;
  type : ColumnType;
  allowNull : bool
}.

(** [class TableDefinition]; its [name] is [table_name] here, [name] being
    the field of [Column]. *)
Record TableDefinition : Type := mkTable {
  table_name : string;
  columns : list Column
}.

(** [TableDefinition.column(name, type, allowNull = true, isPrimaryKey = false)];
    an omitted argument is [None]. *)
Definition column (n : string) (t : ColumnType)
    (allowNull' : option bool) (isPrimaryKey' : option bool) : Column :=
  {| name := n;
     type := t;
     allowNull := match allowNull' with Some b => b | None => true end;
     isPrimaryKey := match isPrimaryKey' with Some b => b | None => false end |}.

(** ** The driver interface *)

Definition Handle : Type := nat.

(** What [db.run] resolves with. *)
Record RunResult : Type := mkRunResult { lastID : Z; changes : Z }.

Definition Row : Type := JsObject.

(** The promises the class awaits: [open] and the five methods of the
    [Database] object it calls. *)
Inductive Call : Type :=
| COpen (filename : string)
| CClose (h : Handle)
| CExec (h : Handle) (sql : string)
| CRun (h : Handle) (sql : string) (args : list JsValue)
| CGet (h : Handle) (sql : string) (args : list JsValue)
| CAll (h : Handle) (sql : string) (args : list JsValue).

Definition Reply (c : Call) : Type :=
  match c with
  | COpen _ => Handle
  | CClose _ => unit
  | CExec _ _ => unit
  | CRun _ _ _ => RunResult
  | CGet _ _ _ => option Row
  | CAll _ _ _ => list Row
  end.

(** How a promise settles. *)
Inductive Settled (R : Type) : Type :=
| Resolved (v : R)
| Rejected (reason : string).
Arguments Resolved {R} v.
Arguments Rejected {R} reason.

(** What a [throw] carries: an error object of the driver, or a bare string
    as in [throw 'DATABASE ERROR']. *)
Inductive Thrown : Type :=
| DriverError (reason : string)
| ThrownString (s : string).

(** ** Programs *)

Inductive Prog (A : Type) : Type :=
| Ret (a : A)
| Throw (e : Thrown)
| ReadDb (k : option Handle -> Prog A)
| WriteDb (d : option Handle) (k : Prog A)
| ConsoleLog (msg : string) (k : Prog A)
| Await (c : Call) (k : Settled (Reply c) -> Prog A)
| Fork (t : Prog unit) (k : Prog A).
Arguments Ret {A} a.
Arguments Throw {A} e.
Arguments ReadDb {A} k.
Arguments WriteDb {A} d k.
Arguments ConsoleLog {A} msg k.
Arguments Await {A} c k.
Arguments Fork {A} t k.

Fixpoint bind {A B : Type} (p : Prog A) (f : A -> Prog B) : Prog B :=
  match p with
  | Ret a => f a
  | Throw e => Throw e
  | ReadDb k => ReadDb (fun d => bind (k d) f)
  | WriteDb d k => WriteDb d (bind k f)
  | ConsoleLog m k => ConsoleLog m (bind k f)
  | Await c k => Await c (fun r => bind (k r) f)
  | Fork t k => Fork t (bind k f)
  end.

Declare Scope prog_scope.
Delimit Scope prog_scope with prog.
Notation "x <- p ;; q" := (bind p (fun x => q))
  (at level 100, p at next level, right associativity) : prog_scope.
Notation "p ;; q" := (bind p (fun _ => q))
  (at level 100, right associativity) : prog_scope.
Open Scope prog_scope.

(** [try { p } catch (error) { h error }] *)
Fixpoint try_catch {A : Type} (p : Prog A) (h : Thrown -> Prog A) : Prog A :=
  match p with
  | Ret a => Ret a
  | Throw e => h e
  | ReadDb k => ReadDb (fun d => try_catch (k d) h)
  | WriteDb d k => WriteDb d (try_catch k h)
  | ConsoleLog m k => ConsoleLog m (try_catch k h)
  | Await c k => Await c (fun r => try_catch (k r) h)
  | Fork t k => Fork t (try_catch k h)
  end.

(** [try { p } finally { f }]: [f] runs on both exits of [p]; when [f]
    itself throws, its exception replaces the result of [p]. *)
Fixpoint try_finally {A : Type} (p : Prog A) (f : Prog unit) : Prog A :=
  match p with
  | Ret a => f ;; Ret a
  | Throw e => f ;; Throw e
  | ReadDb k => ReadDb (fun d => try_finally (k d) f)
  | WriteDb d k => WriteDb d (try_finally k f)
  | ConsoleLog m k => ConsoleLog m (try_finally k f)
  | Await c k => Await c (fun r => try_finally (k r) f)
  | Fork t k => Fork t (try_finally k f)
  end.

Definition try_catch_finally {A : Type}
    (p : Prog A) (h : Thrown -> Prog A) (f : Prog unit) : Prog A :=
  try_finally (try_catch p h) f.

(** [await <driver promise>]: a rejection is thrown at the [await]. *)
Definition await (c : Call) : Prog (Reply c) :=
  Await c (fun r =>
    match r with
    | Resolved v => Ret v
    | Rejected e => Throw (DriverError e)
    end).

Definition read_db : Prog (option Handle) := ReadDb (fun d => Ret d).
Definition write_db (d : option Handle) : Prog unit := WriteDb d (Ret tt).
Definition console_log (msg : string) : Prog unit := ConsoleLog msg (Ret tt).

(** [this.db != null] *)
Definition not_null (d : option Handle) : bool :=
  match d with Some _ => true | None => false end.

(** [value ?? default] for an omitted argument of a function that declares
    [param = default]. *)
Definition or_default {A : Type} (dflt : A) (arg : option A) : A :=
  match arg with Some a => a | None => dflt end.

(** ** [class ForzenSqliteDb] (db.ts, first copy) *)

Module ForzenSqliteDb.

(** [this.db = await open({ filename: `./${DB_NAME}`, driver: sqlite3.Database })] *)
Definition createConnection : Prog unit :=
  h <- await (COpen ("./" ++ DB_NAME)) ;;
  write_db (Some h).

Definition beginSession : Prog unit :=
  createConnection.

(** [await this.db?.close(); this.db = null;] *)
Definition endSession : Prog unit :=
  d <- read_db ;;
  match d with
  | Some h => await (CClose h)
  | None => Ret tt
  end ;;
  write_db None.

(** [await this.beginSession(); await block(); await this.endSession();]
    The block is the computation that [await block()] waits for: what runs
    until the value [block] returns has settled.  Work that [block] starts
    and neither awaits nor returns is a [Fork] node of it. *)
Definition session (block : Prog unit) : Prog unit :=
  beginSession ;;
  block ;;
  endSession.

Definition exec (sql : string) : Prog unit :=
  d <- read_db ;;
  let isInTransaction := not_null d in
  try_catch_finally
    ((if negb isInTransaction then createConnection else Ret tt) ;;
     d' <- read_db ;;
     match d' with
     | Some h => await (CExec h sql)
     | None => Ret tt
     end)
    (fun error =>
       console_log ("DATABASE ERROR FOR QUERY:" ++ LF ++ sql) ;;
       Throw error)
    (if negb isInTransaction then endSession else Ret tt).

Definition makeColumnSqlEntry (column : Column) : string :=
  (name column ++ " " ++ ColumnType_value (type column))
  ++ (if isPrimaryKey column then " PRIMARY KEY" else "")
  ++ (if allowNull column then "" else " NOT NULL").

(** [createTable(table, allowPreexisting = true)] *)
Definition createTable (table : TableDefinition) (allowPreexisting' : option bool)
    : Prog unit :=
  let allowPreexisting := or_default true allowPreexisting' in
  let sql := "CREATE TABLE " ++ (if allowPreexisting then "IF NOT EXISTS " else "")
             ++ table_name table ++ " (" in
  let sql := sql ++ join "," (map (fun column => makeColumnSqlEntry column)
                                  (columns table)) in
  let sql := sql ++ ");" in
  exec sql.

(** The body shared by [run], [get] and [all]; they differ in the driver
    method they call.  [on_null] is the statement guarded by [if (!this.db)];
    in the source it is [throw 'DATABASE ERROR'].  The guard and the call
    that follows it read [this.db] with nothing in between: one read stands
    for both. *)
Definition statement {R : Type} (on_null : Prog R) (call : Handle -> Prog R)
    (sql : string) : Prog R :=
  d <- read_db ;;
  let isInTransaction := not_null d in
  try_catch_finally
    ((if negb isInTransaction then createConnection else Ret tt) ;;
     d' <- read_db ;;
     match d' with
     | None => on_null
     | Some h => call h
     end)
    (fun error =>
       console_log ("DATABASE ERROR FOR QUERY:" ++ LF ++ sql) ;;
       Throw error)
    (if negb isInTransaction then endSession else Ret tt).

Definition DATABASE_ERROR {R : Type} : Prog R :=
  Throw (ThrownString "DATABASE ERROR").

(** [run<T>(sql, args = [])] *)
Definition run (sql : string) (args' : option (list JsValue)) : Prog RunResult :=
  let args := or_default [] args' in
  statement DATABASE_ERROR (fun h => await (CRun h sql args)) sql.

(** [get<T>(sql, args = [])] *)
Definition get (sql : string) (args' : option (list JsValue)) : Prog (option Row) :=
  let args := or_default [] args' in
  statement DATABASE_ERROR (fun h => await (CGet h sql args)) sql.

(** [all<T>(sql, args = [])] *)
Definition all (sql : string) (args' : option (list JsValue)) : Prog (list Row) :=
  let args := or_default [] args' in
  statement DATABASE_ERROR (fun h => await (CAll h sql args)) sql.

(** [entity.tableName] is substituted into the template literal, as are the
    joined keys and the question marks. *)
Definition insert (entity : JsObject) : Prog unit :=
  let keys := filter (fun key => negb (String.eqb key "tableName")) (Js.keys entity) in
  let keyValueMap := entity in
  let sqlArgumentMap := map (fun key => lookup keyValueMap key) keys in
  let qMarks := join "," (map (fun _ => "?") keys) in
  let sql := "INSERT INTO " ++ to_string (lookup entity "tableName")
             ++ " ( " ++ join "," keys ++ " ) VALUES (" ++ qMarks ++ ")" in
  run sql (Some sqlArgumentMap) ;;
  Ret tt.

End ForzenSqliteDb.

(** ** The second copy of the class in db.ts (lines 304-402)

    Its [beginSession], [endSession], [session], [createConnection], [exec],
    [run] and [all] are, character for character, those of the first copy;
    it has no [createTable] and no [insert]; its [get] awaits [this.db.run]. *)

Module SecondCopy.

Definition get (sql : string) (args' : option (list JsValue)) : Prog RunResult :=
  let args := or_default [] args' in
  ForzenSqliteDb.statement ForzenSqliteDb.DATABASE_ERROR
    (fun h => await (CRun h sql args)) sql.

End SecondCopy.

(** ** The SQL engine and the interpreter *)

(** The engine behind the driver: it decides whether the database file can
    be opened and closed, whether a statement executes, and which rows a
    statement selects.  [Env] is whatever the engine remembers between two
    calls (the contents of the file, for one). *)
Record Engine : Type := mkEngine {
  Env : Type;
  e_open : string -> Env -> Settled unit * Env;
  e_close : Handle -> Env -> Settled unit * Env;
  e_exec : Handle -> string -> Env -> Settled unit * Env;
  e_run : Handle -> string -> list JsValue -> Env -> Settled RunResult * Env;
  e_rows : Handle -> string -> list JsValue -> Env -> Settled (list Row) * Env
}.

(** What an observer of the process sees, in order. *)
Inductive Event : Type :=
| Called (c : Call)               (* a driver method is invoked *)
| Settles (c : Call) (ok : bool)  (* its promise resolves (true) or rejects *)
| Logged (msg : string)           (* console.log *)
| Detached                        (* a promise is created and dropped *)
| DetachedEnds (ok : bool).       (* dropped work runs to its end *)

Definition map_settled {A B : Type} (f : A -> B) (r : Settled A) : Settled B :=
  match r with
  | Resolved v => Resolved (f v)
  | Rejected e => Rejected e
  end.

Definition is_resolved {A : Type} (r : Settled A) : bool :=
  match r with Resolved _ => true | Rejected _ => false end.

Section Interpreter.

Variable eng : Engine.

(** Everything outside the object: the engine, the connections that were
    opened and not closed, the next fresh connection and the trace. *)
Record World : Type := mkWorld {
  env : Env eng;
  live : list Handle;
  next_handle : Handle;
  trace : list Event
}.

Definition emit (e : Event) (w : World) : World :=
  {| env := env w; live := live w; next_handle := next_handle w;
     trace := trace w ++ [e] |}.

(** The promise of call [c] settles.  [open] resolves with a connection
    that did not exist before; [close] takes the connection out of the open
    ones; [get] resolves with the first selected row or [undefined], [all]
    with every selected row. *)
Definition settle (c : Call) (w : World) : Settled (Reply c) * World :=
  match c return Settled (Reply c) * World with
  | COpen filename =>
      let '(r, env') := e_open eng filename (env w) in
      let h := next_handle w in
      match r with
      | Resolved _ =>
          (Resolved h,
           {| env := env'; live := h :: live w; next_handle := S h;
              trace := trace w ++ [Settles (COpen filename) true] |})
      | Rejected e =>
          (Rejected e,
           {| env := env'; live := live w; next_handle := next_handle w;
              trace := trace w ++ [Settles (COpen filename) false] |})
      end
  | CClose h =>
      let '(r, env') := e_close eng h (env w) in
      (r,
       {| env := env';
          live := if is_resolved r
                  then filter (fun h' => negb (Nat.eqb h' h)) (live w)
                  else live w;
          next_handle := next_handle w;
          trace := trace w ++ [Settles (CClose h) (is_resolved r)] |})
  | CExec h sql =>
      let '(r, env') := e_exec eng h sql (env w) in
      (r,
       {| env := env'; live := live w; next_handle := next_handle w;
          trace := trace w ++ [Settles (CExec h sql) (is_resolved r)] |})
  | CRun h sql args =>
      let '(r, env') := e_run eng h sql args (env w) in
      (r,
       {| env := env'; live := live w; next_handle := next_handle w;
          trace := trace w ++ [Settles (CRun h sql args) (is_resolved r)] |})
  | CGet h sql args =>
      let '(r, env') := e_rows eng h sql args (env w) in
      (map_settled (@hd_error Row) r,
       {| env := env'; live := live w; next_handle := next_handle w;
          trace := trace w ++ [Settles (CGet h sql args) (is_resolved r)] |})
  | CAll h sql args =>
      let '(r, env') := e_rows eng h sql args (env w) in
      (r,
       {| env := env'; live := live w; next_handle := next_handle w;
          trace := trace w ++ [Settles (CAll h sql args) (is_resolved r)] |})
  end.

(** Asynchronous work that was started and whose promise nobody holds: it
    waits for call [c] to settle and goes on with [k]. *)
Inductive Suspended : Type :=
| Susp (c : Call) (k : Settled (Reply c) -> Prog unit).

(** The object ([this.db]), the world, and the dropped promises. *)
Record State : Type := mkState {
  db : option Handle;
  world : World;
  pending : list Suspended
}.

Definition set_db (d : option Handle) (s : State) : State :=
  {| db := d; world := world s; pending := pending s |}.
Definition set_world (w : World) (s : State) : State :=
  {| db := db s; world := w; pending := pending s |}.
Definition observe (e : Event) (s : State) : State :=
  set_world (emit e (world s)) s.
Definition suspend (t : Suspended) (s : State) : State :=
  {| db := db s; world := world s; pending := pending s ++ [t] |}.

(** Dropped work runs by itself up to its next [await] of the driver, or to
    its end. *)
Fixpoint advance (p : Prog unit) (s : State) : State :=
  match p with
  | Ret _ => observe (DetachedEnds true) s
  | Throw _ => observe (DetachedEnds false) s
  | ReadDb k => advance (k (db s)) s
  | WriteDb d k => advance k (set_db d s)
  | ConsoleLog m k => advance k (observe (Logged m) s)
  | Await c k => suspend (Susp c k) (observe (Called c) s)
  | Fork t k => advance k (advance t (observe Detached s))
  end.

Definition resume (t : Suspended) (s : State) : State :=
  match t with
  | Susp c k =>
      let '(r, w) := settle c (world s) in
      advance (k r) (set_world w s)
  end.

(** The calls that dropped work is waiting for were made earlier than the
    call the main line is about to wait for: they settle first, in the order
    they were made, and each piece of dropped work moves on to its next
    [await].  The driver may settle calls in another order; serving them in
    the order they were made is one schedule, and it plays no part as long
    as nothing is pending. *)
Definition deliver_pending (s : State) : State :=
  fold_left (fun acc t => resume t acc) (pending s)
            {| db := db s; world := world s; pending := [] |}.

(** How an [async] method ends. *)
Inductive Outcome (A : Type) : Type :=
| Returned (a : A)
| Raised (e : Thrown).
Arguments Returned {A} a.
Arguments Raised {A} e.

(** The main line: the chain of awaits that starts at the method called.
    JavaScript runs it to the next [await] without interruption; while it
    waits for the driver, dropped work whose calls were made earlier is
    served first. *)
Fixpoint interp {A : Type} (p : Prog A) (s : State) : Outcome A * State :=
  match p with
  | Ret a => (Returned a, s)
  | Throw e => (Raised e, s)
  | ReadDb k => interp (k (db s)) s
  | WriteDb d k => interp k (set_db d s)
  | ConsoleLog m k => interp k (observe (Logged m) s)
  | Await c k =>
      let s1 := deliver_pending (observe (Called c) s) in
      let '(r, w) := settle c (world s1) in
      interp (k r) (set_world w s1)
  | Fork t k => interp k (advance t (observe Detached s))
  end.

(** A state in which no dropped work is pending. *)
Definition quiet (d : option Handle) (w : World) : State :=
  {| db := d; world := w; pending := [] |}.

(** A fresh object in a fresh process: [db = null], nothing open. *)
Definition initial (e : Env eng) : State :=
  quiet None {| env := e; live := []; next_handle := 0; trace := [] |}.

End Interpreter.

Arguments env {eng} w.
Arguments live {eng} w.
Arguments next_handle {eng} w.
Arguments trace {eng} w.
Arguments db {eng} s.
Arguments world {eng} s.
Arguments pending {eng} s.
Arguments Returned {A} a.
Arguments Raised {A} e.

(** ** A small engine to run the programs on

    One table, kept as the list of its rows.  The file always opens and
    closes; a statement fails when its text is [NOT SQL]; [run] of an
    [INSERT] stores a row holding its arguments, [run] of anything else
    changes nothing; a query selects every stored row. *)

Module Toy.

Definition fails (sql : string) : bool := String.eqb sql "NOT SQL".

Definition is_insert (sql : string) : bool := String.prefix "INSERT" sql.

Definition row_of (args : list JsValue) : Row :=
  combine ["foo"; "bar"] args.

Definition engine : Engine :=
  {| Env := list Row;
     e_open := fun _ rows => (Resolved tt, rows);
     e_close := fun _ rows => (Resolved tt, rows);
     e_exec := fun _ sql rows =>
       if fails sql then (Rejected "SQLITE_ERROR", rows) else (Resolved tt, rows);
     e_run := fun _ sql args rows =>
       if fails sql then (Rejected "SQLITE_ERROR", rows)
       else if is_insert sql
       then (Resolved {| lastID := Z.of_nat (S (length rows)); changes := 1 |},
             (rows ++ [row_of args])%list)
       else (Resolved {| lastID := Z.of_nat (length rows); changes := 0 |}, rows);
     e_rows := fun _ sql _ rows =>
       if fails sql then (Rejected "SQLITE_ERROR", rows) else (Resolved rows, rows) |}.

(** The same engine, except that closing a connection fails. *)
Definition engine_close_fails : Engine :=
  {| Env := list Row;
     e_open := e_open engine;
     e_close := fun _ rows => (Rejected "SQLITE_BUSY", rows);
     e_exec := e_exec engine;
     e_run := e_run engine;
     e_rows := e_rows engine |}.

(** A fresh process, and a process in which connection 0 is open. *)
Definition no_rows : Env engine := @nil Row.

Definition fresh_world : World engine :=
  {| env := no_rows; live := []; next_handle := 0; trace := [] |}.

Definition open_world : World engine :=
  {| env := no_rows; live := [0]; next_handle := 1; trace := [] |}.

(** The fresh process after [beginSession]. *)
Definition begun_world : World engine :=
  {| env := no_rows; live := [0]; next_handle := 1;
     trace := [Called (COpen "./__FORZENDB__.db");
               Settles (COpen "./__FORZENDB__.db") true] |}.

(** The block of the README and of the example scripts: an [async] arrow
    function that awaits each call it makes. *)
Definition readme_block : Prog unit :=
  ForzenSqliteDb.exec "CREATE TABLE IF NOT EXISTS my_table (foo INT, bar TEXT);" ;;
  ForzenSqliteDb.run "INSERT INTO my_table (foo, bar) VALUES (?, ?);"
                     (Some [VNum 123; VStr "abc"]) ;;
  Ret tt.

(** [() => { db.exec(sql); }]: the call is made, its promise is dropped, and
    the block returns [undefined] at once. *)
Definition dropping_block (sql : string) : Prog unit :=
  Fork (ForzenSqliteDb.exec sql) (Ret tt).

(** [() => { throw 'boom'; }] *)
Definition throwing_block : Prog unit :=
  Throw (ThrownString "boom").

(** The entity of the second example script. *)
Definition testObj : JsObject :=
  [("tableName", VStr "my_table_2"); ("foo", VNum 1337); ("bar", VStr "potato")].

(** The table of the second example script. *)
Definition table : TableDefinition :=
  {| table_name := "my_table_2";
     columns := [column "foo" INTEGER None None; column "bar" TEXT None None] |}.

End Toy.

(** ** Assumptions on the engine and predicates on traces *)

(** Closing a connection never fails. *)
Definition closes_reliably (eng : Engine) : Prop :=
  forall h e, is_resolved (fst (e_close eng h e)) = true.

(** Opening the database file never fails. *)
Definition opens_reliably (eng : Engine) : Prop :=
  forall f e, is_resolved (fst (e_open eng f e)) = true.

Definition is_close_call (e : Event) : bool :=
  match e with
  | Called (CClose _) => true
  | _ => false
  end.

(** A statement of the caller settles, or work the caller dropped ends. *)
Definition is_work_settling (e : Event) : bool :=
  match e with
  | Settles (CExec _ _) _ | Settles (CRun _ _ _) _
  | Settles (CGet _ _ _) _ | Settles (CAll _ _ _) _ => true
  | DetachedEnds _ => true
  | _ => false
  end.

(** What happens after [close] is first called. *)
Fixpoint after_close (tr : list Event) : list Event :=
  match tr with
  | [] => []
  | e :: rest => if is_close_call e then rest else after_close rest
  end.

(** The session ends ([close] is called) while work is still to settle. *)
Definition work_outlives_session (tr : list Event) : bool :=
  existsb is_work_settling (after_close tr).

(** Every open connection is older than the next one to be opened: true of
    a fresh process and kept by every driver call. *)
Definition fresh_handles {eng : Engine} (w : World eng) : Prop :=
  forall h, In h (live w) -> h < next_handle w.

(** What one statement leaves in the trace: the driver call, how it
    settled, and the line the [catch] block logs when it was rejected. *)
Definition statement_events (c : Call) (ok : bool) (sql : string) : list Event :=
  [Called c; Settles c ok]
  ++ (if ok then [] else [Logged ("DATABASE ERROR FOR QUERY:" ++ LF ++ sql)]).

(** The object is Closed and the open connections are those of [w]: what
    was opened since has been closed. *)
Definition closed_as_in {eng : Engine} (w : World eng) (s' : State eng) : Prop :=
  db s' = None /\ pending s' = [] /\ live (world s') = live w.

(** The object still holds connection [h], and one statement on [h] is all
    that happened since [w]. *)
Definition reused {eng : Engine} (h : Handle) (w : World eng) (c : Call)
    (sql : string) (s' : State eng) : Prop :=
  db s' = Some h
  /\ pending s' = []
  /\ live (world s') = live w
  /\ next_handle (world s') = next_handle w
  /\ exists ok, trace (world s') = (trace w ++ statement_events c ok sql)%list.

(** A call of one of the four statement methods, and the state a caller
    that goes on whatever the result finds after one call, after several. *)
Inductive StatementCall : Type :=
| CallExec (sql : string)
| CallRun (sql : string) (args : option (list JsValue))
| CallGet (sql : string) (args : option (list JsValue))
| CallAll (sql : string) (args : option (list JsValue)).

Definition after_call {eng : Engine} (c : StatementCall) (s : State eng)
    : State eng :=
  match c with
  | CallExec sql => snd (interp eng (ForzenSqliteDb.exec sql) s)
  | CallRun sql args => snd (interp eng (ForzenSqliteDb.run sql args) s)
  | CallGet sql args => snd (interp eng (ForzenSqliteDb.get sql args) s)
  | CallAll sql args => snd (interp eng (ForzenSqliteDb.all sql args) s)
  end.

Definition after_calls {eng : Engine} (cs : list StatementCall) (s : State eng)
    : State eng :=
  fold_left (fun s c => after_call c s) cs s.

(** ** The specification's wording, for comparison *)

Module Spec.

(** Section 4.2: [<col> <TYPE> [PRIMARY KEY] [NOT NULL]], where
    [PRIMARY KEY] is there iff the primary-key flag is set and [NOT NULL]
    iff the nullability flag is false. *)
Definition ColumnEntry (c : Column) (entry : string) : Prop :=
  exists pk nn : string,
    entry = name c ++ " " ++ ColumnType_value (type c) ++ pk ++ nn
    /\ (pk = " PRIMARY KEY" \/ pk = "")
    /\ (pk = " PRIMARY KEY" <-> isPrimaryKey c = true)
    /\ (nn = " NOT NULL" \/ nn = "")
    /\ (nn = " NOT NULL" <-> allowNull c = false).

(** Section 4.2: [CREATE TABLE [IF NOT EXISTS] <name> (<entries>);] with one
    entry per column, in descriptor order, separated by commas; the guard is
    there iff [allowPreexisting] is true. *)
Definition CreateTableSql (t : TableDefinition) (allowPreexisting : bool)
    (sql : string) : Prop :=
  exists (guard : string) (entries : list string),
    sql = "CREATE TABLE " ++ guard ++ table_name t ++ " ("
          ++ join "," entries ++ ");"
    /\ (guard = "IF NOT EXISTS " \/ guard = "")
    /\ (guard = "IF NOT EXISTS " <-> allowPreexisting = true)
    /\ Forall2 ColumnEntry (columns t) entries.

(** Section 4.1: [INSERT] with one positional placeholder per column. *)
Definition insert_sql (tableName : string) (cols : list string) : string :=
  "INSERT INTO " ++ tableName ++ " ( " ++ join "," cols ++ " ) VALUES ("
  ++ join "," (repeat "?" (length cols)) ++ ")".

(** The fields of an entity other than the table-name field. *)
Definition column_fields (entity : JsObject) : JsObject :=
  filter (fun kv => negb (String.eqb (fst kv) "tableName")) entity.

(** Section 4.1, the note on [session]: the block is started and the
    session is closed without waiting for it. *)
Definition session_without_await (block : Prog unit) : Prog unit :=
  ForzenSqliteDb.beginSession ;;
  Fork block (Ret tt) ;;
  ForzenSqliteDb.endSession.

(** Section 4.1: [beginSession] opens the connection if none is open. *)
Definition beginSession_if_closed : Prog unit :=
  d <- read_db ;;
  if not_null d then Ret tt else ForzenSqliteDb.createConnection.

(** Section 4.1: [session] releases the connection on every exit path of
    the block. *)
Definition session_releasing (block : Prog unit) : Prog unit :=
  ForzenSqliteDb.beginSession ;;
  try_finally block ForzenSqliteDb.endSession.

End Spec.

(** ** Callers: blocks of calls, the event loop, the example scripts *)

(** A call of one of the six methods that send a statement. *)
Inductive DbCall : Type :=
| DExec (sql : string)
| DRun (sql : string) (args : option (list JsValue))
| DGet (sql : string) (args : option (list JsValue))
| DAll (sql : string) (args : option (list JsValue))
| DCreateTable (table : TableDefinition) (allowPreexisting : option bool)
| DInsert (entity : JsObject).

(** [await db.m(...);] with the result dropped. *)
Definition await_call (c : DbCall) : Prog unit :=
  match c with
  | DExec sql => ForzenSqliteDb.exec sql
  | DRun sql args => ForzenSqliteDb.run sql args ;; Ret tt
  | DGet sql args => ForzenSqliteDb.get sql args ;; Ret tt
  | DAll sql args => ForzenSqliteDb.all sql args ;; Ret tt
  | DCreateTable table allow => ForzenSqliteDb.createTable table allow
  | DInsert entity => ForzenSqliteDb.insert entity
  end.

(** An [async] block that awaits one call after the other. *)
Fixpoint await_calls (cs : list DbCall) : Prog unit :=
  match cs with
  | [] => Ret tt
  | c :: rest => await_call c ;; await_calls rest
  end.

(** The driver calls of a trace, in the order they were made. *)
Fixpoint calls_made (tr : list Event) : list Call :=
  match tr with
  | [] => []
  | Called c :: rest => c :: calls_made rest
  | _ :: rest => calls_made rest
  end.

(** The lines written to the console, in order. *)
Fixpoint lines_logged (tr : list Event) : list string :=
  match tr with
  | [] => []
  | Logged msg :: rest => msg :: lines_logged rest
  | _ :: rest => lines_logged rest
  end.

Definition is_open (c : Call) : bool :=
  match c with COpen _ => true | _ => false end.

Definition is_close (c : Call) : bool :=
  match c with CClose _ => true | _ => false end.

(** A statement sent on connection [h]. *)
Definition is_statement_on (h : Handle) (c : Call) : bool :=
  match c with
  | CExec h' _ | CRun h' _ _ | CGet h' _ _ | CAll h' _ _ => Nat.eqb h' h
  | COpen _ | CClose _ => false
  end.

(** No statement is ever rejected. *)
Definition statements_resolve (eng : Engine) : Prop :=
  (forall h sql e, is_resolved (fst (e_exec eng h sql e)) = true)
  /\ (forall h sql args e, is_resolved (fst (e_run eng h sql args e)) = true)
  /\ (forall h sql args e, is_resolved (fst (e_rows eng h sql args e)) = true).

(** The event loop once the main line has ended: as long as dropped work is
    pending, the calls it waits for settle and it moves on.  [rounds] bounds
    the number of rounds. *)
Fixpoint event_loop {eng : Engine} (rounds : nat) (s : State eng) : State eng :=
  match rounds with
  | 0 => s
  | S n =>
      match pending s with
      | [] => s
      | _ :: _ => event_loop n (deliver_pending eng s)
      end
  end.

(** The first example script.  [main] makes the object, calls [db.session]
    and drops its promise; [main] itself is called the same way. *)
Module Example1.

Definition create_my_table : string :=
  "CREATE TABLE IF NOT EXISTS my_table (" ++ LF
  ++ "        foo INT," ++ LF
  ++ "        bar TEXT" ++ LF
  ++ "      );".

Definition insert_my_table : string :=
  "INSERT INTO my_table (foo, bar) VALUES (?, ?);".

Definition block : Prog unit :=
  ForzenSqliteDb.exec create_my_table ;;
  ForzenSqliteDb.run insert_my_table (Some [VNum 123; VStr "abc"]) ;;
  Ret tt.

Definition main : Prog unit :=
  Fork (ForzenSqliteDb.session block) (Ret tt).

End Example1.

(** The second example script.  [console.log] prints the row through
    Node's formatting of objects, which is taken as given: [inspect]. *)
Module Example2.

Definition table : TableDefinition :=
  {| table_name := "my_table_2";
     columns := [column "foo" INTEGER None None; column "bar" TEXT None None] |}.

Definition testObj : JsObject :=
  [("tableName", VStr "my_table_2"); ("foo", VNum 1337); ("bar", VStr "potato")].

Definition block (inspect : option Row -> string) : Prog unit :=
  ForzenSqliteDb.exec Example1.create_my_table ;;
  ForzenSqliteDb.run Example1.insert_my_table (Some [VNum 123; VStr "abc"]) ;;
  ForzenSqliteDb.createTable table (Some true) ;;
  ForzenSqliteDb.insert testObj ;;
  row <- ForzenSqliteDb.get "SELECT * FROM my_table" (Some []) ;;
  console_log (inspect row).

Definition main (inspect : option Row -> string) : Prog unit :=
  Fork (ForzenSqliteDb.session (block inspect)) (Ret tt).

End Example2.

(** An engine on which nothing ever fails: the toy engine without its one
    failing statement. *)
Module Obliging.

Definition engine : Engine :=
  {| Env := list Row;
     e_open := fun _ rows => (Resolved tt, rows);
     e_close := fun _ rows => (Resolved tt, rows);
     e_exec := fun _ _ rows => (Resolved tt, rows);
     e_run := fun _ sql args rows =>
       if Toy.is_insert sql
       then (Resolved {| lastID := Z.of_nat (S (length rows)); changes := 1 |},
             (rows ++ [Toy.row_of args])%list)
       else (Resolved {| lastID := Z.of_nat (length rows); changes := 0 |}, rows);
     e_rows := fun _ _ _ rows => (Resolved rows, rows) |}.

Definition no_rows : Env engine := @nil Row.

Definition fresh_world : World engine :=
  {| env := no_rows; live := []; next_handle := 0; trace := [] |}.

End Obliging.

(** The state one statement on the open connection [h] leaves: the handle
    and the open connections as they were, the engine in [env'], and the
    events of the statement added to the trace. *)
Definition after_statement {eng : Engine} (w : World eng) (h : Handle)
    (c : Call) (ok : bool) (sql : string) (env' : Env eng) : State eng :=
  quiet eng (Some h)
    {| env := env'; live := live w; next_handle := next_handle w;
       trace := trace w ++ statement_events c ok sql |}.


(** Since world [w] the object has held connection [h] all along: the
    handle and the open connections are unchanged, and every driver call
    made since is a statement on [h]. *)
Definition session_kept {eng : Engine} (h : Handle) (w : World eng)
    (s' : State eng) : Prop :=
  db s' = Some h
  /\ pending s' = []
  /\ live (world s') = live w
  /\ next_handle (world s') = next_handle w
  /\ exists evs,
       trace (world s') = (trace w ++ evs)%list
       /\ forallb (is_statement_on h) (calls_made evs) = true.

(** The driver call that a call of one of the six methods makes on
    connection [h]. *)
Definition sent_call (h : Handle) (c : DbCall) : Call :=
  match c with
  | DExec sql => CExec h sql
  | DRun sql args => CRun h sql (or_default [] args)
  | DGet sql args => CGet h sql (or_default [] args)
  | DAll sql args => CAll h sql (or_default [] args)
  | DCreateTable t allow =>
      CExec h ("CREATE TABLE "
               ++ (if or_default true allow then "IF NOT EXISTS " else "")
               ++ table_name t ++ " ("
               ++ join "," (map ForzenSqliteDb.makeColumnSqlEntry (columns t))
               ++ ");")
  | DInsert entity =>
      CRun h (Spec.insert_sql (to_string (lookup entity "tableName"))
                (keys (Spec.column_fields entity)))
             (map (lookup entity) (keys (Spec.column_fields entity)))
  end.

(** Every call of [cs] returns when the calls are made one after the other
    from [s], each from the state the one before it left. *)
Fixpoint all_return {eng : Engine} (cs : list DbCall) (s : State eng) : Prop :=
  match cs with
  | [] => True
  | c :: rest =>
      fst (interp eng (await_call c) s) = Returned tt
      /\ all_return rest (snd (interp eng (await_call c) s))
  end.

(** The state the calls of [cs], made one after the other from [s], leave. *)
Definition after_awaited {eng : Engine} (cs : list DbCall) (s : State eng)
    : State eng :=
  fold_left (fun s0 c => snd (interp eng (await_call c) s0)) cs s.

(** An engine whose database file cannot be opened. *)
Module Offline.

Definition engine : Engine :=
  {| Env := list Row;
     e_open := fun _ rows => (Rejected "SQLITE_CANTOPEN", rows);
     e_close := e_close Toy.engine;
     e_exec := e_exec Toy.engine;
     e_run := e_run Toy.engine;
     e_rows := e_rows Toy.engine |}.

Definition no_rows : Env engine := @nil Row.

Definition fresh_world : World engine :=
  {| env := no_rows; live := []; next_handle := 0; trace := [] |}.

End Offline.

(** * Theorems *)

(** ** The interpreter and the control operators *)

Section Control.

Variable eng : Engine.

(** Sequencing: the second program starts in the state the first one
    returned in, and does not start when the first one raised. *)
Lemma interp_bind {A B : Type} (p : Prog A) (f : A -> Prog B) (s : State eng) :
  interp eng (bind p f) s =
  match interp eng p s with
  | (Returned a, s') => interp eng (f a) s'
  | (Raised e, s') => (Raised e, s')
  end.
Proof.
  revert f s; induction p as [A a|A e|A k IH|A d k IH|A m k IH|A c k IH|A t _ k IH];
    intros f s; simpl; auto.
  destruct (settle eng c _) as [r w]. apply IH.
Qed.

(** [catch]: the handler runs when, and where, the body raised. *)
Lemma interp_try_catch {A : Type} (p : Prog A) (h : Thrown -> Prog A)
    (s : State eng) :
  interp eng (try_catch p h) s =
  match interp eng p s with
  | (Returned a, s') => (Returned a, s')
  | (Raised e, s') => interp eng (h e) s'
  end.
Proof.
  revert h s; induction p as [A a|A e|A k IH|A d k IH|A m k IH|A c k IH|A t _ k IH];
    intros h s; simpl; auto.
  destruct (settle eng c _) as [r w]. apply IH.
Qed.

(** [finally]: the cleanup runs on both exits of the body, and the body's
    result stands unless the cleanup raises. *)
Lemma interp_try_finally {A : Type} (p : Prog A) (f : Prog unit)
    (s : State eng) :
  interp eng (try_finally p f) s =
  let '(o, s') := interp eng p s in
  match interp eng f s' with
  | (Returned _, s'') => (o, s'')
  | (Raised e, s'') => (Raised e, s'')
  end.
Proof.
  revert s; induction p as [A a|A e|A k IH|A d k IH|A m k IH|A c k IH|A t _ k IH];
    intros s; simpl; auto.
  - rewrite interp_bind. destruct (interp eng f s) as [[[]|e] s']; reflexivity.
  - rewrite interp_bind. destruct (interp eng f s) as [[[]|e'] s']; reflexivity.
  - destruct (settle eng c _) as [r w]. apply IH.
Qed.

(** Nothing is ever taken back from the trace. *)
Lemma settle_trace (c : Call) (w : World eng) :
  trace (snd (settle eng c w)) = (trace w ++ [Settles c (is_resolved (fst (settle eng c w)))])%list.
Proof.
  destruct c; simpl.
  - destruct (e_open eng filename (env w)) as [[[]|e] env']; reflexivity.
  - destruct (e_close eng h (env w)) as [r env']; reflexivity.
  - destruct (e_exec eng h sql (env w)) as [r env']; reflexivity.
  - destruct (e_run eng h sql args (env w)) as [r env']; reflexivity.
  - destruct (e_rows eng h sql args (env w)) as [[r|e] env']; reflexivity.
  - destruct (e_rows eng h sql args (env w)) as [r env']; reflexivity.
Qed.

End Control.

(** ** The methods, call by call *)

#[local] Arguments append : simpl never.

(** Case analysis on the next answer of the engine. *)
Ltac engine_case :=
  match goal with
  | |- context [e_open ?e ?f ?x] =>
      destruct (e_open e f x) as [[[]|?] ?] eqn:?
  | |- context [e_close ?e ?h ?x] =>
      destruct (e_close e h x) as [[[]|?] ?] eqn:?
  | |- context [e_exec ?e ?h ?q ?x] =>
      destruct (e_exec e h q x) as [[[]|?] ?] eqn:?
  | |- context [e_run ?e ?h ?q ?a ?x] =>
      destruct (e_run e h q a x) as [[?|?] ?] eqn:?
  | |- context [e_rows ?e ?h ?q ?a ?x] =>
      destruct (e_rows e h q a x) as [[?|?] ?] eqn:?
  end; cbn.

(** A rejected [close] contradicts [closes_reliably], a rejected [open]
    contradicts [opens_reliably]. *)
Ltac reliable H :=
  match goal with
  | E : e_close ?e ?h ?x = (Rejected _, _) |- _ =>
      let Hr := fresh in
      pose proof (H h x) as Hr; rewrite E in Hr; discriminate Hr
  | E : e_open ?e ?f ?x = (Rejected _, _) |- _ =>
      let Hr := fresh in
      pose proof (H f x) as Hr; rewrite E in Hr; discriminate Hr
  end.

Ltac unfold_methods :=
  unfold ForzenSqliteDb.session, ForzenSqliteDb.insert,
         ForzenSqliteDb.createTable, ForzenSqliteDb.exec,
         SecondCopy.get, ForzenSqliteDb.run, ForzenSqliteDb.get,
         ForzenSqliteDb.all, ForzenSqliteDb.statement,
         ForzenSqliteDb.DATABASE_ERROR, ForzenSqliteDb.beginSession,
         ForzenSqliteDb.endSession, ForzenSqliteDb.createConnection,
         try_catch_finally, quiet in *.

Section Methods.

Import ForzenSqliteDb.

Variable eng : Engine.

Lemma filter_above (w : World eng) (k : Handle) :
  fresh_handles w ->
  next_handle w <= k ->
  filter (fun h' => negb (Nat.eqb h' k)) (live w) = live w.
Proof.
  unfold fresh_handles. intros F Hk.
  induction (live w) as [|h l IH]; simpl; auto.
  destruct (Nat.eqb_spec h k) as [E|_]; simpl.
  - specialize (F h (or_introl eq_refl)). lia.
  - rewrite IH; [reflexivity|]. intros h' Hin. apply F. now right.
Qed.

Lemma filter_fresh (w : World eng) :
  fresh_handles w ->
  filter (fun h' => negb (Nat.eqb h' (next_handle w))) (live w) = live w.
Proof.
  intros F. now apply filter_above.
Qed.

(** [endSession] on an open connection that the driver closes. *)
Lemma endSession_open (w : World eng) (h : Handle) (env' : Env eng) :
  e_close eng h (env w) = (Resolved tt, env') ->
  interp eng endSession (quiet eng (Some h) w) =
  (Returned tt,
   quiet eng None
     {| env := env';
        live := filter (fun h' => negb (Nat.eqb h' h)) (live w);
        next_handle := next_handle w;
        trace := trace w ++ [Called (CClose h); Settles (CClose h) true] |}).
Proof.
  intros E. unfold_methods. cbn. rewrite E. cbn.
  now rewrite <- app_assoc.
Qed.

(** [endSession] when the driver refuses to close: the rejection is thrown
    at [await this.db?.close()] and [this.db = null] is not reached. *)
Lemma endSession_close_rejected (w : World eng) (h : Handle) (msg : string)
    (env' : Env eng) :
  e_close eng h (env w) = (Rejected msg, env') ->
  interp eng endSession (quiet eng (Some h) w) =
  (Raised (DriverError msg),
   quiet eng (Some h)
     {| env := env';
        live := live w;
        next_handle := next_handle w;
        trace := trace w ++ [Called (CClose h); Settles (CClose h) false] |}).
Proof.
  intros E. unfold_methods. cbn. rewrite E. cbn.
  now rewrite <- app_assoc.
Qed.

(** [endSession] without a connection does nothing, in any state. *)
Lemma endSession_closed (s : State eng) :
  db s = None -> interp eng endSession s = (Returned tt, s).
Proof.
  destruct s as [d w p]; simpl; intros ->. reflexivity.
Qed.

(** [endSession] that returns leaves no connection. *)
Lemma endSession_returns_closed (s s' : State eng) :
  interp eng endSession s = (Returned tt, s') -> db s' = None.
Proof.
  unfold_methods. destruct s as [[h|] w p]; cbn.
  - destruct (e_close eng h _) as [[[]|msg] env']; cbn;
      intros E; inversion E; reflexivity.
  - intros E; inversion E; reflexivity.
Qed.

(** On an engine whose [close] resolves, [endSession] returns and leaves
    no connection in the handle. *)
Lemma endSession_closes_and_returns (w : World eng) (d : option Handle) :
  closes_reliably eng ->
  fst (interp eng endSession (quiet eng d w)) = Returned tt
  /\ db (snd (interp eng endSession (quiet eng d w))) = None.
Proof.
  intros Hc. destruct d as [h|].
  - destruct (e_close eng h (env w)) as [[[]|msg] env'] eqn:E.
    + rewrite (endSession_open w h env' E). now split.
    + reliable Hc.
  - now rewrite endSession_closed.
Qed.

(** [createConnection] when the file opens: a connection that did not exist
    before is stored in [this.db], whatever was there. *)
Lemma createConnection_opened (w : World eng) (d : option Handle) (env' : Env eng) :
  e_open eng ("./" ++ DB_NAME) (env w) = (Resolved tt, env') ->
  interp eng createConnection (quiet eng d w) =
  (Returned tt,
   quiet eng (Some (next_handle w))
     {| env := env';
        live := next_handle w :: live w;
        next_handle := S (next_handle w);
        trace := trace w ++ [Called (COpen ("./" ++ DB_NAME));
                             Settles (COpen ("./" ++ DB_NAME)) true] |}).
Proof.
  intros E. unfold_methods. cbn. rewrite E. cbn.
  now rewrite <- app_assoc.
Qed.

End Methods.

(** ** An invariant of the world: handles are never reused *)

Section Freshness.

Variable eng : Engine.

Lemma settle_keeps_handles_fresh (c : Call) (w : World eng) :
  fresh_handles w -> fresh_handles (snd (settle eng c w)).
Proof.
  unfold fresh_handles. intros F. destruct c; simpl.
  - destruct (e_open eng filename (env w)) as [[[]|e] env']; simpl; auto.
    intros h [<-|Hin]; [lia|]. specialize (F h Hin). lia.
  - destruct (e_close eng h (env w)) as [[[]|e] env']; simpl; auto.
    intros h' Hin. apply filter_In in Hin. now apply F.
  - destruct (e_exec eng h sql (env w)) as [r env']; simpl; auto.
  - destruct (e_run eng h sql args (env w)) as [r env']; simpl; auto.
  - destruct (e_rows eng h sql args (env w)) as [r env']; simpl; auto.
  - destruct (e_rows eng h sql args (env w)) as [r env']; simpl; auto.
Qed.

Lemma advance_keeps_handles_fresh (p : Prog unit) :
  forall s : State eng,
    fresh_handles (world s) -> fresh_handles (world (advance eng p s)).
Proof.
  revert p. fix IH 1. intros p s F.
  destruct p as [a|e|k|d k|m k|c k|t k]; simpl.
  - exact F.
  - exact F.
  - apply (IH (k (db s))). exact F.
  - apply (IH k). exact F.
  - apply (IH k). exact F.
  - exact F.
  - apply (IH k). apply (IH t). exact F.
Qed.

Lemma resume_keeps_handles_fresh (t : Suspended) (s : State eng) :
  fresh_handles (world s) -> fresh_handles (world (resume eng t s)).
Proof.
  intros F. destruct t as [c k]. unfold resume.
  pose proof (settle_keeps_handles_fresh c (world s) F) as F'.
  destruct (settle eng c (world s)) as [r w'].
  now apply advance_keeps_handles_fresh.
Qed.

Lemma deliver_pending_keeps_handles_fresh (s : State eng) :
  fresh_handles (world s) -> fresh_handles (world (deliver_pending eng s)).
Proof.
  unfold deliver_pending. intros F.
  assert (G : fresh_handles
                (world {| db := db s; world := world s; pending := [] |}))
    by exact F.
  revert G. generalize {| db := db s; world := world s; pending := [] |}.
  induction (pending s) as [|t l IH]; simpl; intros s0 G; auto.
  apply IH. now apply resume_keeps_handles_fresh.
Qed.

(** Whatever program runs, in whatever state: if every open connection was
    older than the next handle before, it is so after.  A fresh process
    starts with no connection, so that the worlds it reaches all satisfy
    [fresh_handles]. *)
Lemma interp_keeps_handles_fresh {A : Type} (p : Prog A) (s : State eng) :
  fresh_handles (world s) -> fresh_handles (world (snd (interp eng p s))).
Proof.
  revert s.
  induction p as [A a|A e|A k IH|A d k IH|A m k IH|A c k IH|A t _ k IH];
    intros s F; simpl; auto.
  - pose proof (deliver_pending_keeps_handles_fresh
                  (observe eng (Called c) s) F) as F1.
    pose proof (settle_keeps_handles_fresh c _ F1) as F2.
    destruct (settle eng c _) as [r w']. now apply IH.
  - apply IH. now apply advance_keeps_handles_fresh.
Qed.

Lemma initial_handles_fresh (e : Env eng) :
  fresh_handles (world (initial eng e)).
Proof.
  intros h [].
Qed.

End Freshness.

(** ** Claims on the connection lifecycle *)

Section Lifecycle.

Import ForzenSqliteDb.

Variable eng : Engine.

(** Running [endSession] a second time changes nothing, in any state and
    whether or not the first run raised. *)
Lemma endSession_twice (s : State eng) :
  interp eng (endSession ;; endSession) s = interp eng endSession s.
Proof.
  rewrite interp_bind.
  destruct (interp eng endSession s) as [[[]|e] s'] eqn:E; [|reflexivity].
  apply endSession_closed. now apply endSession_returns_closed with (s := s).
Qed.

(** Claim C7, amended.  [endSession] closes the connection in the handle,
    if there is one, and sets the handle to absent, provided the driver's
    [close] resolves: it then returns, the connection has been closed
    through the driver and is no longer among the open ones.  When the
    driver rejects the [close], [endSession] raises that rejection, the
    handle still holds the connection and the connection is still open.
    Whatever the driver does, [endSession] is idempotent: with no
    connection in the handle it changes nothing at all, once it has
    returned a second call is a no-op, and two calls in a row leave the
    state, and give the outcome, of one call. *)
Theorem endSession_closes_and_is_idempotent (w : World eng) (d : option Handle) :
  let s := quiet eng d w in
  let s' := snd (interp eng endSession s) in
  (closes_reliably eng ->
     fst (interp eng endSession s) = Returned tt
     /\ db s' = None
     /\ (forall h, d = Some h ->
           ~ In h (live (world s'))
           /\ trace (world s')
              = (trace w ++ [Called (CClose h); Settles (CClose h) true])%list))
  /\ (forall h msg env',
        d = Some h ->
        e_close eng h (env w) = (Rejected msg, env') ->
        fst (interp eng endSession s) = Raised (DriverError msg)
        /\ db s' = Some h
        /\ live (world s') = live w
        /\ trace (world s')
           = (trace w ++ [Called (CClose h); Settles (CClose h) false])%list)
  /\ (d = None -> interp eng endSession s = (Returned tt, s))
  /\ (fst (interp eng endSession s) = Returned tt ->
        interp eng endSession s' = (Returned tt, s'))
  /\ interp eng (endSession ;; endSession) s = interp eng endSession s.
Proof.
  intros s s'.
  split; [|split; [|split; [|split]]].
  - intros Hc.
    assert (Hs' : fst (interp eng endSession s) = Returned tt /\ db s' = None)
      by (apply endSession_closes_and_returns; exact Hc).
    destruct Hs' as [Hret Hdb].
    split; [exact Hret|]. split; [exact Hdb|].
    intros h ->. subst s s'.
    destruct (e_close eng h (env w)) as [[[]|msg] env'] eqn:E.
    + rewrite (endSession_open eng w h env' E). simpl. split; [|reflexivity].
      rewrite filter_In, Nat.eqb_refl. intros [_ F]. discriminate F.
    + reliable Hc.
  - intros h msg env' -> E. subst s s'.
    rewrite (endSession_close_rejected eng w h msg env' E). simpl.
    repeat split; reflexivity.
  - intros ->. subst s. now apply endSession_closed.
  - intros Hret. apply endSession_closed. subst s'.
    destruct (interp eng endSession s) as [o s1] eqn:E. simpl in *. subst o.
    now apply endSession_returns_closed with (s := s).
  - apply endSession_twice.
Qed.

End Lifecycle.

(** A connection is open, the driver closes it, the handle is cleared. *)
Lemma endSession_closes_and_is_idempotent_witness :
  closes_reliably Toy.engine
  /\ fst (interp Toy.engine ForzenSqliteDb.endSession
            (quiet Toy.engine (Some 0) Toy.open_world)) = Returned tt
  /\ db (snd (interp Toy.engine ForzenSqliteDb.endSession
                (quiet Toy.engine (Some 0) Toy.open_world))) = None.
Proof.
  assert (H : closes_reliably Toy.engine) by (intros h e; reflexivity).
  split; [exact H|].
  destruct (endSession_closes_and_is_idempotent Toy.engine Toy.open_world (Some 0))
    as (Hclose & _).
  destruct (Hclose H) as (Hret & Hdb & _).
  split; assumption.
Defined.

(** Claim C7 as the specification words it, on a driver that answers
    [close] with a rejection: connection 0 is in the handle, [endSession]
    raises the driver's error at [await this.db?.close()], the assignment
    [this.db = null] is not reached, and the handle still holds
    connection 0, which is still open. *)
Lemma endSession_keeps_handle_when_close_is_rejected :
  interp Toy.engine_close_fails ForzenSqliteDb.endSession
    (quiet Toy.engine_close_fails (Some 0)
       (mkWorld Toy.engine_close_fails Toy.no_rows [0] 1 []))
  = (Raised (DriverError "SQLITE_BUSY"),
     quiet Toy.engine_close_fails (Some 0)
       (mkWorld Toy.engine_close_fails Toy.no_rows [0] 1
          [Called (CClose 0); Settles (CClose 0) false]))
  /\ db (snd (interp Toy.engine_close_fails ForzenSqliteDb.endSession
                (quiet Toy.engine_close_fails (Some 0)
                   (mkWorld Toy.engine_close_fails Toy.no_rows [0] 1 []))))
     <> None.
Proof.
  split; [reflexivity|discriminate].
Qed.

(** ** Claims on [exec], [run], [get] and [all] *)

Section Statements.

Import ForzenSqliteDb.

Variable eng : Engine.

Ltac run_method :=
  unfold_methods; unfold closed_as_in, reused, statement_events; cbn;
  repeat engine_case.


(** The same for a caller that makes one call after the other, whatever
    each of them returns or raises: the object is Closed between any two
    calls and after the last. *)
Lemma calls_outside_session_stay_closed
    (cs : list StatementCall) (w : World eng) :
  closes_reliably eng ->
  fresh_handles w ->
  closed_as_in w (after_calls cs (quiet eng None w)).
Proof.
  intros Hc. revert w.
  induction cs as [|c cs IH]; intros w Hf; [now repeat split|].
  unfold after_calls; simpl. fold (after_calls cs (after_call c (quiet eng None w))).
  assert (H1 : closed_as_in w (after_call c (quiet eng None w))).
  { destruct c; simpl; run_method; try reliable Hc;
      rewrite ?Nat.eqb_refl; cbn; rewrite ?filter_fresh; auto. }
  assert (F1 : fresh_handles (world (after_call c (quiet eng None w)))).
  { destruct c; unfold after_call;
      exact (interp_keeps_handles_fresh eng _ (quiet eng None w) Hf). }
  destruct (after_call c (quiet eng None w)) as [d1 w1 p1].
  destruct H1 as (Hd & Hp & Hl). simpl in Hd, Hp, Hl, F1. subst d1 p1.
  destruct (IH w1 F1) as (Hd' & Hp' & Hl').
  repeat split; auto. now rewrite <- Hl.
Qed.

(** Claim C4.  A call of [exec], [run], [get] or [all] made while a
    connection is open makes its one driver call on that connection and
    leaves the handle as it was: nothing is opened, nothing is closed,
    whether the statement succeeds or is rejected. *)
Theorem active_session_connection_is_reused
    (w : World eng) (h : Handle) (sql : string) (args : option (list JsValue)) :
  reused h w (CExec h sql) sql
    (snd (interp eng (exec sql) (quiet eng (Some h) w)))
  /\ reused h w (CRun h sql (or_default [] args)) sql
       (snd (interp eng (run sql args) (quiet eng (Some h) w)))
  /\ reused h w (CGet h sql (or_default [] args)) sql
       (snd (interp eng (get sql args) (quiet eng (Some h) w)))
  /\ reused h w (CAll h sql (or_default [] args)) sql
       (snd (interp eng (all sql args) (quiet eng (Some h) w))).
Proof.
  repeat split; run_method; auto;
    solve [ exists true; cbn; now rewrite <- !app_assoc
          | exists false; cbn; now rewrite <- !app_assoc ].
Qed.

(** Whatever stands in the branch of [if (!this.db)], the method behaves
    the same: the branch is never entered.  In any state, also with dropped
    work pending. *)
Lemma statement_on_null_irrelevant {R : Type} (on_null on_null' : Prog R)
    (call : Handle -> Prog R) (sql : string) (s : State eng) :
  interp eng (statement on_null call sql) s =
  interp eng (statement on_null' call sql) s.
Proof.
  unfold_methods. destruct s as [[h|] w p]; cbn; [reflexivity|].
  engine_case; reflexivity.
Qed.

(** What [run], [get] and [all] raise is what the driver rejected with. *)
Ltac db_case :=
  match goal with
  | |- context [match db ?s with _ => _ end] => destruct (db s) eqn:?
  end; cbn.

Ltac raises_driver_error :=
  let E := fresh in
  unfold_methods;
  match goal with s : State _ |- _ => destruct s as [[?|] ? ?] end;
  cbn; repeat (engine_case || db_case); intros E; inversion E; eauto.

Lemma run_raises_driver_errors (sql : string) (args : option (list JsValue))
    (s : State eng) (e : Thrown) :
  fst (interp eng (run sql args) s) = Raised e -> exists msg, e = DriverError msg.
Proof. raises_driver_error. Qed.

Lemma get_raises_driver_errors (sql : string) (args : option (list JsValue))
    (s : State eng) (e : Thrown) :
  fst (interp eng (get sql args) s) = Raised e -> exists msg, e = DriverError msg.
Proof. raises_driver_error. Qed.

Lemma all_raises_driver_errors (sql : string) (args : option (list JsValue))
    (s : State eng) (e : Thrown) :
  fst (interp eng (all sql args) s) = Raised e -> exists msg, e = DriverError msg.
Proof. raises_driver_error. Qed.

(** The statement before the check, [if (!isInTransaction) await
    this.createConnection()] with [isInTransaction] computed from the state
    the method was called in: when it completes, the handle is set. *)
Lemma handle_is_set_at_the_check (s s' : State eng) :
  interp eng (if negb (not_null (db s)) then createConnection else Ret tt) s
  = (Returned tt, s') ->
  db s' <> None.
Proof.
  unfold_methods. destruct s as [[h|] w p]; cbn.
  - intros E; inversion E; discriminate.
  - engine_case; intros E; inversion E; discriminate.
Qed.

(** Claim C10.  In [run], [get] and [all] the statement guarded by
    [if (!this.db)] is dead code.  Execution reaches the check only with the
    handle set: either it was set when the method was called, or
    [createConnection] has just set it.  So replacing
    [throw 'DATABASE ERROR'] by any other program changes neither the result
    nor the final state, in any state of the object and on any engine; and
    none of the three methods ever raises ['DATABASE ERROR']. *)
Theorem database_error_branch_is_unreachable
    (s : State eng) (sql : string) (args : option (list JsValue)) :
  (forall s',
      interp eng (if negb (not_null (db s)) then createConnection else Ret tt) s
      = (Returned tt, s') ->
      db s' <> None)
  /\ (forall on_null,
      interp eng (statement on_null
                    (fun h => await (CRun h sql (or_default [] args))) sql) s
      = interp eng (run sql args) s)
  /\ (forall on_null,
      interp eng (statement on_null
                    (fun h => await (CGet h sql (or_default [] args))) sql) s
      = interp eng (get sql args) s)
  /\ (forall on_null,
      interp eng (statement on_null
                    (fun h => await (CAll h sql (or_default [] args))) sql) s
      = interp eng (all sql args) s)
  /\ fst (interp eng (run sql args) s) <> Raised (ThrownString "DATABASE ERROR")
  /\ fst (interp eng (get sql args) s) <> Raised (ThrownString "DATABASE ERROR")
  /\ fst (interp eng (all sql args) s) <> Raised (ThrownString "DATABASE ERROR").
Proof.
  split; [intros s'; apply handle_is_set_at_the_check|].
  repeat split; intros;
    try apply statement_on_null_irrelevant.
  - intros E. destruct (run_raises_driver_errors _ _ _ _ E) as [m Hm].
    discriminate Hm.
  - intros E. destruct (get_raises_driver_errors _ _ _ _ E) as [m Hm].
    discriminate Hm.
  - intros E. destruct (all_raises_driver_errors _ _ _ _ E) as [m Hm].
    discriminate Hm.
Qed.

End Statements.


(** ** Claims on [beginSession] and [session] *)

Section Sessions.

Import ForzenSqliteDb.

Variable eng : Engine.

(** [session] is its three steps in sequence: when [beginSession] returns
    and the computation awaited by [await block()] returns, [endSession]
    starts in the state that computation ended in. *)
Lemma session_runs_in_order (block : Prog unit) (s s0 s1 : State eng) :
  interp eng beginSession s = (Returned tt, s0) ->
  interp eng block s0 = (Returned tt, s1) ->
  interp eng (session block) s = interp eng endSession s1.
Proof.
  intros Hb Hk. unfold session.
  rewrite interp_bind, Hb, interp_bind, Hk. reflexivity.
Qed.

(** When the block raises, [session] ends there: [endSession] is not run. *)
Lemma session_stops_where_block_raises (block : Prog unit) (e : Thrown)
    (s s0 s1 : State eng) :
  interp eng beginSession s = (Returned tt, s0) ->
  interp eng block s0 = (Raised e, s1) ->
  interp eng (session block) s = (Raised e, s1).
Proof.
  intros Hb Hk. unfold session.
  rewrite interp_bind, Hb, interp_bind, Hk. reflexivity.
Qed.

(** When the block returns and has dropped no work, [session] ends Closed,
    provided the driver closes the connection. *)
Lemma session_closes_when_block_returns (block : Prog unit)
    (w w1 : World eng) (s0 : State eng) (d : option Handle) :
  closes_reliably eng ->
  interp eng beginSession (quiet eng None w) = (Returned tt, s0) ->
  interp eng block s0 = (Returned tt, quiet eng d w1) ->
  fst (interp eng (session block) (quiet eng None w)) = Returned tt
  /\ db (snd (interp eng (session block) (quiet eng None w))) = None.
Proof.
  intros Hc Hb Hk.
  rewrite (session_runs_in_order block _ _ _ Hb Hk).
  destruct (endSession_closes_and_returns eng w1 d Hc) as [H1 H2]. now split.
Qed.

(** Claim C1 (as the code has it).  When the block raises, [session] raises
    the same error and leaves the connection it opened open: the handle is
    still set, the connection is still among the open ones, and [close] was
    never called.  With the [finally] that [exec], [run], [get] and [all]
    have, the object would end Closed. *)
Theorem session_leaves_connection_open_when_block_raises
    (w : World eng) (e : Thrown) :
  opens_reliably eng ->
  closes_reliably eng ->
  let r := interp eng (session (Throw e)) (quiet eng None w) in
  fst r = Raised e
  /\ db (snd r) = Some (next_handle w)
  /\ live (world (snd r)) = next_handle w :: live w
  /\ trace (world (snd r))
     = (trace w ++ [Called (COpen ("./" ++ DB_NAME));
                    Settles (COpen ("./" ++ DB_NAME)) true])%list
  /\ db (snd (interp eng (Spec.session_releasing (Throw e)) (quiet eng None w)))
     = None.
Proof.
  intros Ho Hc r. subst r.
  destruct (e_open eng ("./" ++ DB_NAME) (env w)) as [[[]|msg] env'] eqn:E;
    [|reliable Ho].
  pose proof (createConnection_opened eng w None env' E) as Hb.
  rewrite (session_stops_where_block_raises (Throw e) e _ _ _ Hb eq_refl).
  repeat split.
  unfold Spec.session_releasing. rewrite interp_bind.
  unfold beginSession. rewrite Hb. unfold_methods. cbn.
  engine_case; [reflexivity|reliable Hc].
Qed.

(** With the guard the specification describes, a second [beginSession]
    would change nothing. *)
Lemma guarded_beginSession_keeps_connection (w : World eng) (h : Handle) :
  interp eng Spec.beginSession_if_closed (quiet eng (Some h) w)
  = (Returned tt, quiet eng (Some h) w).
Proof.
  reflexivity.
Qed.

(** Claim C2 (as the code has it).  [beginSession] opens a connection
    whether or not one is open.  Called twice in a row it opens two: both
    are open at once, the handle holds the second, and nothing holds the
    first any more, so that the [endSession] that follows closes the second
    and leaves the first open for good. *)
Theorem second_beginSession_opens_second_connection (w : World eng) :
  opens_reliably eng ->
  closes_reliably eng ->
  fresh_handles w ->
  let n := next_handle w in
  let s2 := snd (interp eng (beginSession ;; beginSession) (quiet eng None w)) in
  let s3 := snd (interp eng (beginSession ;; beginSession ;; endSession)
                   (quiet eng None w)) in
  db s2 = Some (S n)
  /\ live (world s2) = S n :: n :: live w
  /\ db s3 = None
  /\ live (world s3) = n :: live w.
Proof.
  intros Ho Hc Hf n s2 s3. subst n s2 s3.
  unfold_methods. cbn.
  repeat engine_case; try reliable Ho; try reliable Hc.
  rewrite Nat.eqb_refl. cbn.
  replace (Nat.eqb (next_handle w) (S (next_handle w))) with false
    by (symmetry; apply Nat.eqb_neq; lia).
  cbn. rewrite filter_above by (auto; lia). auto.
Qed.

End Sessions.

(** The block throws: the session ends with connection 0 open. *)
Lemma session_leaves_connection_open_when_block_raises_witness :
  opens_reliably Toy.engine
  /\ closes_reliably Toy.engine
  /\ fst (interp Toy.engine (ForzenSqliteDb.session Toy.throwing_block)
            (quiet Toy.engine None Toy.fresh_world))
     = Raised (ThrownString "boom")
  /\ db (snd (interp Toy.engine (ForzenSqliteDb.session Toy.throwing_block)
                (quiet Toy.engine None Toy.fresh_world)))
     = Some 0
  /\ live (world (snd (interp Toy.engine (ForzenSqliteDb.session Toy.throwing_block)
                         (quiet Toy.engine None Toy.fresh_world))))
     = [0].
Proof.
  assert (Ho : opens_reliably Toy.engine) by (intros f e; reflexivity).
  assert (Hc : closes_reliably Toy.engine) by (intros h e; reflexivity).
  destruct (session_leaves_connection_open_when_block_raises
              Toy.engine Toy.fresh_world (ThrownString "boom") Ho Hc)
    as (Hraised & Hdb & Hlive & _).
  split; [exact Ho|]. split; [exact Hc|].
  split; [exact Hraised|]. split; [exact Hdb|exact Hlive].
Defined.

(** The same with an [async] block whose awaited statement is rejected:
    [exec] logs and raises again, [session] passes the error on, and
    connection 0 stays open. *)
Example session_leaves_connection_open_when_statement_fails :
  let r := interp Toy.engine
             (ForzenSqliteDb.session (ForzenSqliteDb.exec "NOT SQL"))
             (quiet Toy.engine None Toy.fresh_world) in
  fst r = Raised (DriverError "SQLITE_ERROR")
  /\ db (snd r) = Some 0
  /\ live (world (snd r)) = [0]
  /\ existsb is_close_call (trace (world (snd r))) = false.
Proof.
  repeat split.
Qed.

(** Two [beginSession] in a fresh process: connections 0 and 1 are open. *)
Lemma second_beginSession_opens_second_connection_witness :
  opens_reliably Toy.engine
  /\ closes_reliably Toy.engine
  /\ fresh_handles Toy.fresh_world
  /\ live (world (snd (interp Toy.engine
                         (ForzenSqliteDb.beginSession ;; ForzenSqliteDb.beginSession)
                         (quiet Toy.engine None Toy.fresh_world))))
     = [1; 0]
  /\ live (world (snd (interp Toy.engine
                         (ForzenSqliteDb.beginSession ;; ForzenSqliteDb.beginSession ;;
                          ForzenSqliteDb.endSession)
                         (quiet Toy.engine None Toy.fresh_world))))
     = [0].
Proof.
  assert (Ho : opens_reliably Toy.engine) by (intros f e; reflexivity).
  assert (Hc : closes_reliably Toy.engine) by (intros h e; reflexivity).
  assert (Hf : fresh_handles Toy.fresh_world) by (intros h []).
  destruct (second_beginSession_opens_second_connection
              Toy.engine Toy.fresh_world Ho Hc Hf) as (_ & H2 & _ & H3).
  split; [exact Ho|]. split; [exact Hc|]. split; [exact Hf|].
  split; [exact H2|exact H3].
Defined.

(** ** Does [session] wait for the block? *)

Section Awaiting.

Import ForzenSqliteDb.

Variable eng : Engine.

(** With no dropped work pending, all [endSession] adds to the trace is the
    call of [close] and how it settled. *)
Lemma endSession_quiet_events (d : option Handle) (w : World eng) :
  exists evs,
    trace (world (snd (interp eng endSession (quiet eng d w))))
    = (trace w ++ evs)%list
    /\ existsb is_work_settling evs = false.
Proof.
  unfold_methods. destruct d as [h|]; cbn.
  - engine_case;
      [exists [Called (CClose h); Settles (CClose h) true]
      |exists [Called (CClose h); Settles (CClose h) false]];
      rewrite <- app_assoc; split; reflexivity.
  - exists []. now rewrite app_nil_r.
Qed.

(** Claim C9, amended.  [session] does await the block: [endSession] starts
    in the state in which the computation awaited by [await block()] ended,
    and when that computation dropped no work, nothing of the block settles
    after [close] is called.  What can outlive the session is work that the
    block starts and neither awaits nor returns: for the block
    [() => { db.exec(sql); }], [close] is called while the statement is
    still to settle. *)
Theorem session_awaits_block
    (w : World eng) (block : Prog unit) (s0 s1 : State eng) :
  interp eng beginSession (quiet eng None w) = (Returned tt, s0) ->
  interp eng block s0 = (Returned tt, s1) ->
  interp eng (session block) (quiet eng None w) = interp eng endSession s1
  /\ (pending s1 = [] ->
      exists evs,
        trace (world (snd (interp eng (session block) (quiet eng None w))))
        = (trace (world s1) ++ evs)%list
        /\ existsb is_work_settling evs = false)
  /\ work_outlives_session
       (trace (world (snd (interp Toy.engine
                             (session (Toy.dropping_block "DELETE FROM my_table"))
                             (quiet Toy.engine None Toy.fresh_world)))))
     = true.
Proof.
  intros Hb Hk.
  pose proof (session_runs_in_order eng block _ _ _ Hb Hk) as Hs.
  repeat split; auto.
  intros Hp. rewrite Hs. destruct s1 as [d w1 p]. simpl in Hp. subst p.
  apply endSession_quiet_events.
Qed.

End Awaiting.

(** The block of the README: both its statements have settled when
    [endSession] starts, and nothing of it settles after [close] is called. *)
Lemma session_awaits_block_witness :
  interp Toy.engine ForzenSqliteDb.beginSession
    (quiet Toy.engine None Toy.fresh_world)
  = (Returned tt, quiet Toy.engine (Some 0) Toy.begun_world)
  /\ fst (interp Toy.engine Toy.readme_block
            (quiet Toy.engine (Some 0) Toy.begun_world))
     = Returned tt
  /\ interp Toy.engine (ForzenSqliteDb.session Toy.readme_block)
       (quiet Toy.engine None Toy.fresh_world)
     = interp Toy.engine ForzenSqliteDb.endSession
         (snd (interp Toy.engine Toy.readme_block
                 (quiet Toy.engine (Some 0) Toy.begun_world)))
  /\ exists evs,
       trace (world (snd (interp Toy.engine
                            (ForzenSqliteDb.session Toy.readme_block)
                            (quiet Toy.engine None Toy.fresh_world))))
       = (trace (world (snd (interp Toy.engine Toy.readme_block
                               (quiet Toy.engine (Some 0) Toy.begun_world))))
          ++ evs)%list
       /\ existsb is_work_settling evs = false.
Proof.
  destruct (session_awaits_block Toy.engine Toy.fresh_world Toy.readme_block
              (quiet Toy.engine (Some 0) Toy.begun_world)
              (snd (interp Toy.engine Toy.readme_block
                      (quiet Toy.engine (Some 0) Toy.begun_world)))
              eq_refl eq_refl)
    as (Horder & Hquiet & _).
  split; [reflexivity|]. split; [reflexivity|].
  split; [exact Horder|exact (Hquiet eq_refl)].
Defined.

(** Claim C9, as stated, at the block of the README.  The claim is that
    [session] does not await the block, that is, that it behaves as
    [Spec.session_without_await].  It does not: for the README's block the
    two differ, [session] calls [close] after both statements of the block
    have settled, and only [Spec.session_without_await] calls it while a
    statement of the block is still to settle. *)
Lemma session_does_not_end_before_readme_block :
  interp Toy.engine (ForzenSqliteDb.session Toy.readme_block)
         (quiet Toy.engine None Toy.fresh_world)
  <> interp Toy.engine (Spec.session_without_await Toy.readme_block)
            (quiet Toy.engine None Toy.fresh_world)
  /\ work_outlives_session
       (trace (world (snd (interp Toy.engine
                             (ForzenSqliteDb.session Toy.readme_block)
                             (quiet Toy.engine None Toy.fresh_world)))))
     = false
  /\ work_outlives_session
       (trace (world (snd (interp Toy.engine
                             (Spec.session_without_await Toy.readme_block)
                             (quiet Toy.engine None Toy.fresh_world)))))
     = true.
Proof.
  split; [|split; reflexivity].
  intros H.
  apply (f_equal (fun r => work_outlives_session (trace (world (snd r))))) in H.
  vm_compute in H. discriminate H.
Qed.


(** ** Claims on the statements [createTable] and [insert] build *)

Section Builders.

Import ForzenSqliteDb.

Lemma append_assoc (a b c : string) : (a ++ b) ++ c = a ++ (b ++ c).
Proof.
  induction a as [|x a IH]; [reflexivity|].
  change (String x ((a ++ b) ++ c) = String x (a ++ (b ++ c))).
  now rewrite IH.
Qed.

Lemma makeColumnSqlEntry_meets_spec (c : Column) :
  Spec.ColumnEntry c (makeColumnSqlEntry c).
Proof.
  unfold Spec.ColumnEntry, makeColumnSqlEntry.
  exists (if isPrimaryKey c then " PRIMARY KEY" else ""),
         (if allowNull c then "" else " NOT NULL").
  repeat split; try (now rewrite !append_assoc);
    destruct (isPrimaryKey c), (allowNull c); auto; discriminate.
Qed.

Lemma ColumnEntry_functional (c : Column) (e1 e2 : string) :
  Spec.ColumnEntry c e1 -> Spec.ColumnEntry c e2 -> e1 = e2.
Proof.
  intros (pk1 & nn1 & -> & Hpk1 & Ppk1 & Hnn1 & Pnn1)
         (pk2 & nn2 & -> & Hpk2 & Ppk2 & Hnn2 & Pnn2).
  assert (pk1 = pk2) as ->.
  { destruct (isPrimaryKey c).
    - rewrite (proj2 Ppk1 eq_refl), (proj2 Ppk2 eq_refl). reflexivity.
    - destruct Hpk1 as [H|H]; [apply Ppk1 in H; discriminate|].
      destruct Hpk2 as [H'|H']; [apply Ppk2 in H'; discriminate|].
      congruence. }
  assert (nn1 = nn2) as ->.
  { destruct (allowNull c).
    - destruct Hnn1 as [H|H]; [apply Pnn1 in H; discriminate|].
      destruct Hnn2 as [H'|H']; [apply Pnn2 in H'; discriminate|].
      congruence.
    - rewrite (proj2 Pnn1 eq_refl), (proj2 Pnn2 eq_refl). reflexivity. }
  reflexivity.
Qed.

Lemma entries_functional (cols : list Column) (es1 es2 : list string) :
  Forall2 Spec.ColumnEntry cols es1 ->
  Forall2 Spec.ColumnEntry cols es2 ->
  es1 = es2.
Proof.
  intros H1. revert es2.
  induction H1 as [|c e1 cols es1 Hc _ IH]; intros es2 H2; inversion H2; subst.
  - reflexivity.
  - f_equal; [eapply ColumnEntry_functional; eassumption | now apply IH].
Qed.

Lemma entries_in_descriptor_order (cols : list Column) :
  Forall2 Spec.ColumnEntry cols (map makeColumnSqlEntry cols).
Proof.
  induction cols as [|c cols IH]; simpl; constructor; auto.
  apply makeColumnSqlEntry_meets_spec.
Qed.

(** Claim C5.  [createTable] passes to [exec] one string, and that string
    is the one the specification describes: [CREATE TABLE], the guard
    [IF NOT EXISTS] iff [allowPreexisting] is true (it is when the argument
    is omitted), the table name, and between [(] and [);] one entry per
    column, in descriptor order and separated by commas, each made of the
    column name, its type, [PRIMARY KEY] iff the primary-key flag is set and
    [NOT NULL] iff the nullability flag is false.  The description fits no
    other string. *)
Theorem createTable_builds_the_specified_statement
    (table : TableDefinition) (allowPreexisting : option bool) :
  exists sql : string,
    createTable table allowPreexisting = exec sql
    /\ Spec.CreateTableSql table (or_default true allowPreexisting) sql
    /\ (forall sql', Spec.CreateTableSql table (or_default true allowPreexisting) sql'
                     -> sql' = sql).
Proof.
  set (allow := or_default true allowPreexisting).
  exists ((("CREATE TABLE " ++ (if allow then "IF NOT EXISTS " else "")
            ++ table_name table ++ " (")
           ++ join "," (map makeColumnSqlEntry (columns table))) ++ ");").
  assert (Hspec : Spec.CreateTableSql table allow
            ((("CREATE TABLE " ++ (if allow then "IF NOT EXISTS " else "")
               ++ table_name table ++ " (")
              ++ join "," (map makeColumnSqlEntry (columns table))) ++ ");")).
  { exists (if allow then "IF NOT EXISTS " else ""),
           (map makeColumnSqlEntry (columns table)).
    repeat split.
    - now rewrite !append_assoc.
    - destruct allow; auto.
    - destruct allow; auto; discriminate.
    - destruct allow; auto; discriminate.
    - apply entries_in_descriptor_order. }
  split; [reflexivity|]. split; [exact Hspec|].
  intros sql' (g' & es' & -> & Hg' & Pg' & F').
  destruct Hspec as (g & es & -> & Hg & Pg & F).
  rewrite (entries_functional _ _ _ F' F).
  assert (g' = g) as ->; [|reflexivity].
  destruct allow.
  - rewrite (proj2 Pg' eq_refl), (proj2 Pg eq_refl). reflexivity.
  - destruct Hg' as [H|H]; [apply Pg' in H; discriminate|].
    destruct Hg as [H'|H']; [apply Pg in H'; discriminate|].
    congruence.
Qed.

Lemma keys_filter (p : string -> bool) (o : JsObject) :
  filter p (keys o) = keys (filter (fun kv => p (fst kv)) o).
Proof.
  unfold keys. induction o as [|[k v] o IH]; simpl; [reflexivity|].
  destruct (p k); simpl; now rewrite IH.
Qed.

(** In an object the value found under a key is the value of the property. *)
Lemma lookup_property (o : JsObject) (k : string) (v : JsValue) :
  well_formed o -> In (k, v) o -> lookup o k = v.
Proof.
  unfold well_formed, keys.
  induction o as [|[k' v'] o IH]; simpl; intros N Hin; [contradiction|].
  inversion N as [|? ? Hnot N']; subst.
  destruct Hin as [E|Hin].
  - inversion E; subst. now rewrite String.eqb_refl.
  - destruct (String.eqb_spec k' k) as [->|_]; [|now apply IH].
    exfalso. apply Hnot. change k with (fst (k, v)). now apply in_map.
Qed.

Lemma lookup_values (o l : JsObject) :
  well_formed o -> incl l o -> map (lookup o) (keys l) = map snd l.
Proof.
  intros N. unfold keys. induction l as [|[k v] l IH]; simpl; intros Hl;
    [reflexivity|].
  rewrite (lookup_property o k v N) by (apply Hl; now left).
  f_equal. apply IH. intros x Hx. apply Hl. now right.
Qed.

Lemma placeholders (A : Type) (l : list A) :
  map (fun _ => "?") l = repeat "?" (length l).
Proof.
  induction l as [|x l IH]; simpl; [reflexivity|]. now rewrite IH.
Qed.

(** Claim C6.  For an entity (an object: no key twice), the column names of
    the [INSERT] are the keys of its fields other than [tableName], in
    enumeration order; the value list is one [?] per column; the argument
    array given to [run] holds the values of those fields in the same
    order; and the text of the statement is determined by the table name
    and the keys alone: entities with the same keys and table name, whatever
    their values, produce the same text. *)
Theorem insert_is_parameterized (entity : JsObject) :
  well_formed entity ->
  let fields := Spec.column_fields entity in
  let sql := Spec.insert_sql (to_string (lookup entity "tableName")) (keys fields) in
  insert entity = (run sql (Some (map snd fields)) ;; Ret tt)
  /\ keys fields
     = filter (fun key => negb (String.eqb key "tableName")) (keys entity)
  /\ length (map snd fields) = length (keys fields)
  /\ (forall entity' : JsObject,
        keys entity' = keys entity ->
        lookup entity' "tableName" = lookup entity "tableName" ->
        exists args', insert entity' = (run sql (Some args') ;; Ret tt)).
Proof.
  intros N fields sql. subst fields sql.
  unfold insert, Spec.insert_sql, Spec.column_fields.
  rewrite !keys_filter, placeholders.
  repeat split.
  - rewrite lookup_values; [reflexivity|assumption|].
    intros x Hx. apply filter_In in Hx. tauto.
  - unfold keys. now rewrite !length_map.
  - intros entity' Hk Ht. eexists.
    rewrite Hk, Ht, !keys_filter, placeholders. reflexivity.
Qed.

End Builders.

(** The table of the example script, and one with both suffixes. *)
Example createTable_example :
  ForzenSqliteDb.createTable Toy.table (Some true)
  = ForzenSqliteDb.exec
      "CREATE TABLE IF NOT EXISTS my_table_2 (foo INTEGER,bar TEXT);"
  /\ ForzenSqliteDb.createTable
       {| table_name := "t";
          columns := [column "id" INTEGER (Some false) (Some true);
                      column "x" REAL None None] |}
       (Some false)
     = ForzenSqliteDb.exec
         "CREATE TABLE t (id INTEGER PRIMARY KEY NOT NULL,x REAL);".
Proof.
  split; reflexivity.
Qed.

(** The entity of the example script. *)
Lemma insert_is_parameterized_witness :
  well_formed Toy.testObj
  /\ ForzenSqliteDb.insert Toy.testObj
     = (ForzenSqliteDb.run "INSERT INTO my_table_2 ( foo,bar ) VALUES (?,?)"
          (Some [VNum 1337; VStr "potato"]) ;;
        Ret tt).
Proof.
  assert (N : well_formed Toy.testObj).
  { unfold well_formed. simpl. repeat constructor; simpl; intuition discriminate. }
  split; [exact N|].
  apply (insert_is_parameterized Toy.testObj N).
Defined.

(** ** What [get] returns *)

Section Get.

Variable eng : Engine.

(** First copy, inside a session: [get] returns the first row the
    statement selects, and [undefined] when it selects none. *)
Lemma get_returns_first_row (w : World eng) (h : Handle) (sql : string)
    (args : option (list JsValue)) (rows : list Row) (env' : Env eng) :
  e_rows eng h sql (or_default [] args) (env w) = (Resolved rows, env') ->
  fst (interp eng (ForzenSqliteDb.get sql args) (quiet eng (Some h) w))
  = Returned (hd_error rows).
Proof.
  intros E. unfold_methods. cbn. rewrite E. reflexivity.
Qed.

(** First copy, outside a session, on an engine that opens and closes. *)
Lemma get_returns_first_row_implicit (w : World eng) (sql : string)
    (args : option (list JsValue)) (rows : list Row) (env1 env2 : Env eng) :
  closes_reliably eng ->
  e_open eng ("./" ++ DB_NAME) (env w) = (Resolved tt, env1) ->
  e_rows eng (next_handle w) sql (or_default [] args) env1 = (Resolved rows, env2) ->
  fst (interp eng (ForzenSqliteDb.get sql args) (quiet eng None w))
  = Returned (hd_error rows).
Proof.
  intros Hc Eo Er. unfold_methods. cbn. rewrite Eo. cbn. rewrite Er. cbn.
  engine_case; [reflexivity|reliable Hc].
Qed.

(** Second copy: whatever the statement selects, [get] returns what the
    driver's [run] resolves with. *)
Lemma second_copy_get_returns_metadata (w : World eng) (h : Handle) (sql : string)
    (args : option (list JsValue)) (meta : RunResult) (env' : Env eng) :
  e_run eng h sql (or_default [] args) (env w) = (Resolved meta, env') ->
  interp eng (SecondCopy.get sql args) (quiet eng (Some h) w)
  = (Returned meta,
     quiet eng (Some h)
       {| env := env'; live := live w; next_handle := next_handle w;
          trace := trace w ++ [Called (CRun h sql (or_default [] args));
                               Settles (CRun h sql (or_default [] args)) true] |}).
Proof.
  intros E. unfold_methods. cbn. rewrite E. cbn. now rewrite <- app_assoc.
Qed.

End Get.

(** Claim C8 (as the second copy has it).  The [get] of the second copy is
    its [run]: it calls [this.db.run] and returns the execution metadata.
    On an empty table, where the [get] of the first copy returns
    [undefined], it returns the object [{ lastID: 0, changes: 0 }]: neither
    a row nor an absent result. *)
Theorem second_copy_get_is_run :
  (forall sql args, SecondCopy.get sql args = ForzenSqliteDb.run sql args)
  /\ interp Toy.engine
       (SecondCopy.get "SELECT * FROM my_table WHERE foo = ?" (Some [VNum 7]))
       (quiet Toy.engine (Some 0) Toy.open_world)
     = (Returned {| lastID := 0; changes := 0 |},
        quiet Toy.engine (Some 0)
          {| env := Toy.no_rows; live := [0]; next_handle := 1;
             trace := [Called (CRun 0 "SELECT * FROM my_table WHERE foo = ?" [VNum 7]);
                       Settles (CRun 0 "SELECT * FROM my_table WHERE foo = ?" [VNum 7])
                               true] |})
  /\ fst (interp Toy.engine
            (ForzenSqliteDb.get "SELECT * FROM my_table WHERE foo = ?" (Some [VNum 7]))
            (quiet Toy.engine (Some 0) Toy.open_world))
     = Returned None.
Proof.
  repeat split.
Qed.

(** * More of the code *)

(** ** Opening and closing *)

Section OpenClose.

Import ForzenSqliteDb.

Variable eng : Engine.

Lemma calls_made_app (tr tr' : list Event) :
  calls_made (tr ++ tr') = (calls_made tr ++ calls_made tr')%list.
Proof.
  induction tr as [|[c|c ok|m| |ok] tr IH]; simpl; auto. now rewrite IH.
Qed.

Lemma lines_logged_app (tr tr' : list Event) :
  lines_logged (tr ++ tr') = (lines_logged tr ++ lines_logged tr')%list.
Proof.
  induction tr as [|[c|c ok|m| |ok] tr IH]; simpl; auto. now rewrite IH.
Qed.

(** Property X1.  [beginSession] followed by [endSession] is a round trip:
    on an engine that opens and closes, it returns with the object Closed
    and the open connections it found, having called [open] once and
    [close] once, on the connection [open] gave.  [session] with a block
    that does nothing is the same program. *)
Theorem beginSession_endSession_round_trip (w : World eng) :
  opens_reliably eng ->
  closes_reliably eng ->
  fresh_handles w ->
  let r := interp eng (beginSession ;; endSession) (quiet eng None w) in
  fst r = Returned tt
  /\ closed_as_in w (snd r)
  /\ next_handle (world (snd r)) = S (next_handle w)
  /\ calls_made (trace (world (snd r)))
     = (calls_made (trace w)
        ++ [COpen ("./" ++ DB_NAME); CClose (next_handle w)])%list
  /\ interp eng (session (Ret tt)) (quiet eng None w) = r.
Proof.
  intros Ho Hc Hf r. subst r.
  unfold_methods; unfold closed_as_in. cbn.
  repeat engine_case; try reliable Ho; try reliable Hc.
  rewrite Nat.eqb_refl. cbn. rewrite filter_fresh by assumption.
  repeat split.
  rewrite !calls_made_app. cbn. now rewrite <- !app_assoc.
Qed.

(** Property X2.  When the database file cannot be opened, [beginSession]
    raises the driver's error and leaves the handle as it was, set or not;
    and [session] ends there, whatever the block: the block is not started
    and [endSession] is not called. *)
Theorem session_does_not_start_when_open_fails
    (w : World eng) (d : option Handle) (msg : string) (env' : Env eng)
    (block : Prog unit) :
  e_open eng ("./" ++ DB_NAME) (env w) = (Rejected msg, env') ->
  let failed :=
    quiet eng d
      {| env := env'; live := live w; next_handle := next_handle w;
         trace := trace w ++ [Called (COpen ("./" ++ DB_NAME));
                              Settles (COpen ("./" ++ DB_NAME)) false] |} in
  interp eng beginSession (quiet eng d w) = (Raised (DriverError msg), failed)
  /\ interp eng (session block) (quiet eng d w) = (Raised (DriverError msg), failed).
Proof.
  intros E failed. subst failed.
  assert (H : interp eng beginSession (quiet eng d w)
              = (Raised (DriverError msg),
                 quiet eng d
                   {| env := env'; live := live w; next_handle := next_handle w;
                      trace := trace w ++ [Called (COpen ("./" ++ DB_NAME));
                                           Settles (COpen ("./" ++ DB_NAME)) false] |})).
  { unfold_methods. cbn. rewrite E. cbn. now rewrite <- app_assoc. }
  split; [exact H|].
  unfold session. rewrite interp_bind, H. reflexivity.
Qed.

End OpenClose.

(** ** Results and errors of the four statement methods *)

Section Results.

Import ForzenSqliteDb.

Variable eng : Engine.

(** Property X3.  Inside a session each of [exec], [run], [get] and [all]
    hands the driver's answer through: it returns what the driver resolved
    with ([all] every row in order, [get] the first row or [undefined],
    [run] the metadata) and logs nothing, or it raises the very error the
    driver rejected with after logging the statement once.  Nothing is
    swallowed and nothing is retried. *)
Theorem statement_in_session_hands_answer_through
    (w : World eng) (h : Handle) (sql : string) (args : option (list JsValue)) :
  (let '(r, env') := e_exec eng h sql (env w) in
   interp eng (exec sql) (quiet eng (Some h) w)
   = (match r with
      | Resolved _ => Returned tt
      | Rejected msg => Raised (DriverError msg)
      end,
      after_statement w h (CExec h sql) (is_resolved r) sql env'))
  /\ (let '(r, env') := e_run eng h sql (or_default [] args) (env w) in
      interp eng (run sql args) (quiet eng (Some h) w)
      = (match r with
         | Resolved meta => Returned meta
         | Rejected msg => Raised (DriverError msg)
         end,
         after_statement w h (CRun h sql (or_default [] args)) (is_resolved r) sql env'))
  /\ (let '(r, env') := e_rows eng h sql (or_default [] args) (env w) in
      interp eng (get sql args) (quiet eng (Some h) w)
      = (match r with
         | Resolved rows => Returned (hd_error rows)
         | Rejected msg => Raised (DriverError msg)
         end,
         after_statement w h (CGet h sql (or_default [] args)) (is_resolved r) sql env')
      /\ interp eng (all sql args) (quiet eng (Some h) w)
         = (match r with
            | Resolved rows => Returned rows
            | Rejected msg => Raised (DriverError msg)
            end,
            after_statement w h (CAll h sql (or_default [] args)) (is_resolved r) sql env')).
Proof.
  unfold after_statement.
  repeat split; unfold_methods; unfold statement_events; cbn;
    repeat engine_case; unfold observe, set_world, emit; cbn;
    now rewrite <- !app_assoc.
Qed.

End Results.

(** ** Calls outside a session *)

Section Implicit.

Import ForzenSqliteDb.

Variable eng : Engine.

(** Property X4.  Outside a session, when the database file cannot be
    opened, each of [exec], [run], [get] and [all] raises the driver's
    error and logs the statement although it was never sent; no statement
    and no [close] reaches the driver, and the object stays Closed. *)
Theorem statement_fails_when_open_fails
    (w : World eng) (sql : string) (args : option (list JsValue))
    (msg : string) (env' : Env eng) :
  e_open eng ("./" ++ DB_NAME) (env w) = (Rejected msg, env') ->
  let failed :=
    quiet eng None
      {| env := env'; live := live w; next_handle := next_handle w;
         trace := trace w
                  ++ [Called (COpen ("./" ++ DB_NAME));
                      Settles (COpen ("./" ++ DB_NAME)) false;
                      Logged ("DATABASE ERROR FOR QUERY:" ++ LF ++ sql)] |} in
  interp eng (exec sql) (quiet eng None w) = (Raised (DriverError msg), failed)
  /\ interp eng (run sql args) (quiet eng None w) = (Raised (DriverError msg), failed)
  /\ interp eng (get sql args) (quiet eng None w) = (Raised (DriverError msg), failed)
  /\ interp eng (all sql args) (quiet eng None w) = (Raised (DriverError msg), failed).
Proof.
  intros E failed. subst failed.
  repeat split; unfold_methods; cbn; rewrite E; cbn;
    unfold observe, set_world, emit; cbn; now rewrite <- !app_assoc.
Qed.


(** Property X6.  The connection a call opens for itself does not change
    what the call answers: on an engine that closes, a call outside a
    session returns or raises exactly what the same call returns or raises
    right after [beginSession]. *)
Theorem implicit_session_is_transparent
    (w : World eng) (sql : string) (args : option (list JsValue)) :
  closes_reliably eng ->
  fst (interp eng (exec sql) (quiet eng None w))
  = fst (interp eng (beginSession ;; exec sql) (quiet eng None w))
  /\ fst (interp eng (run sql args) (quiet eng None w))
     = fst (interp eng (beginSession ;; run sql args) (quiet eng None w))
  /\ fst (interp eng (get sql args) (quiet eng None w))
     = fst (interp eng (beginSession ;; get sql args) (quiet eng None w))
  /\ fst (interp eng (all sql args) (quiet eng None w))
     = fst (interp eng (beginSession ;; all sql args) (quiet eng None w)).
Proof.
  intros Hc.
  repeat split; unfold_methods; cbn; repeat engine_case; try reliable Hc;
    reflexivity.
Qed.

(** Property X7.  [createTable] and [insert] follow the policy of [exec]
    and [run]: called outside a session they leave the object Closed with
    the open connections they found, called inside a session they send
    their one statement on the session's connection and leave the handle
    alone. *)
Theorem builders_follow_the_session_policy
    (w : World eng) (h : Handle) (table : TableDefinition)
    (allowPreexisting : option bool) (entity : JsObject) :
  closes_reliably eng ->
  fresh_handles w ->
  closed_as_in w
    (snd (interp eng (createTable table allowPreexisting) (quiet eng None w)))
  /\ closed_as_in w (snd (interp eng (insert entity) (quiet eng None w)))
  /\ (exists sql,
        createTable table allowPreexisting = exec sql
        /\ reused h w (CExec h sql) sql
             (snd (interp eng (createTable table allowPreexisting)
                     (quiet eng (Some h) w))))
  /\ (exists sql args,
        insert entity = (run sql (Some args) ;; Ret tt)
        /\ reused h w (CRun h sql args) sql
             (snd (interp eng (insert entity) (quiet eng (Some h) w)))).
Proof.
  intros Hc Hf. split; [|split; [|split]].
  - unfold_methods; unfold closed_as_in; cbn; repeat engine_case;
      try reliable Hc; rewrite ?Nat.eqb_refl; cbn; rewrite ?filter_fresh; auto.
  - unfold_methods; unfold closed_as_in; cbn; repeat engine_case;
      try reliable Hc; rewrite ?Nat.eqb_refl; cbn; rewrite ?filter_fresh; auto.
  - eexists. split; [reflexivity|].
    unfold_methods; unfold reused, statement_events; cbn.
    engine_case; unfold observe, set_world, emit; cbn; repeat split;
      solve [ exists true; cbn; now rewrite <- !app_assoc
            | exists false; cbn; now rewrite <- !app_assoc ].
  - do 2 eexists. split; [reflexivity|].
    unfold_methods; unfold reused, statement_events; cbn.
    engine_case; unfold observe, set_world, emit; cbn; repeat split;
      solve [ exists true; cbn; now rewrite <- !app_assoc
            | exists false; cbn; now rewrite <- !app_assoc ].
Qed.

End Implicit.

(** ** Edges of the statement builders *)

Section BuilderEdges.

Import ForzenSqliteDb.

Lemma append_empty (s : string) : s ++ "" = s.
Proof.
  induction s as [|x s IH]; [reflexivity|].
  change (String x (s ++ "") = String x s). now rewrite IH.
Qed.

Lemma lookup_missing (o : JsObject) (k : string) :
  ~ In k (keys o) -> lookup o k = VUndefined.
Proof.
  unfold keys. induction o as [|[k' v] o IH]; simpl; intros N; [reflexivity|].
  destruct (String.eqb_spec k' k) as [->|_]; [exfalso; apply N; now left|].
  apply IH. intros Hin. apply N. now right.
Qed.

Lemma filter_keeps_all (ks : list string) :
  ~ In "tableName" ks ->
  filter (fun key => negb (String.eqb key "tableName")) ks = ks.
Proof.
  induction ks as [|k ks IH]; simpl; intros N; [reflexivity|].
  destruct (String.eqb_spec k "tableName") as [->|_]; simpl.
  - exfalso. apply N. now left.
  - rewrite IH; [reflexivity|]. intros Hin. apply N. now right.
Qed.

(** Property X8.  An object without a [tableName] property is not turned
    down: [insert] names the table [undefined], takes every property for a
    column and passes every value. *)
Theorem insert_without_tableName (entity : JsObject) :
  well_formed entity ->
  ~ In "tableName" (keys entity) ->
  insert entity
  = (run (Spec.insert_sql "undefined" (keys entity)) (Some (map snd entity)) ;;
     Ret tt).
Proof.
  intros N Hno. unfold insert, Spec.insert_sql.
  rewrite filter_keeps_all, placeholders, (lookup_missing entity "tableName") by assumption.
  rewrite lookup_values; [reflexivity|assumption|apply incl_refl].
Qed.

(** Property X9.  Empty input is not turned down either: a table without
    columns gives [CREATE TABLE ... ();], and an entity with no property
    other than [tableName] gives an [INSERT] with empty column and value
    lists and no argument; both are sent as they are. *)
Theorem empty_descriptors_are_sent
    (t : string) (allowPreexisting : option bool) (v : JsValue) :
  createTable {| table_name := t; columns := [] |} allowPreexisting
  = exec ("CREATE TABLE "
          ++ (if or_default true allowPreexisting then "IF NOT EXISTS " else "")
          ++ t ++ " ();")
  /\ insert [("tableName", v)]
     = (run ("INSERT INTO " ++ to_string v ++ " (  ) VALUES ()") (Some []) ;;
        Ret tt).
Proof.
  split.
  - unfold createTable. f_equal. cbn [map join columns table_name].
    rewrite append_empty, !append_assoc. reflexivity.
  - reflexivity.
Qed.

(** The entries of two columns, joined, are the entry of one column whose
    name holds the first entry, the comma and the second name. *)
Lemma join_entries_merge (e1 e2 : string) (rest : list string) :
  join "," ((e1 ++ "," ++ e2) :: rest) = join "," (e1 :: e2 :: rest).
Proof.
  destruct rest as [|e3 rest]; [reflexivity|].
  change (((e1 ++ "," ++ e2) ++ "," ++ join "," (e3 :: rest))
          = e1 ++ "," ++ e2 ++ "," ++ join "," (e3 :: rest)).
  now rewrite !append_assoc.
Qed.

(** Property X10.  Names are spliced into the statement as they are,
    neither quoted nor checked.  A table named [IF NOT EXISTS t] created
    with [allowPreexisting] false gives the statement of table [t] created
    with [allowPreexisting] true; and a column whose name spells out
    another column and a comma gives the statement of the two columns. *)
Theorem names_are_spliced_verbatim
    (t : string) (cols : list Column) (allowPreexisting : option bool)
    (a b : string) (ta tb : ColumnType) (pk an : bool) :
  createTable {| table_name := "IF NOT EXISTS " ++ t; columns := cols |} (Some false)
  = createTable {| table_name := t; columns := cols |} (Some true)
  /\ createTable
       {| table_name := t;
          columns := {| isPrimaryKey := pk;
                        name := a ++ " " ++ ColumnType_value ta ++ "," ++ b;
                        type := tb; allowNull := an |} :: cols |}
       allowPreexisting
     = createTable
         {| table_name := t;
            columns := {| isPrimaryKey := false; name := a; type := ta;
                          allowNull := true |}
                       :: {| isPrimaryKey := pk; name := b; type := tb;
                             allowNull := an |} :: cols |}
         allowPreexisting.
Proof.
  split.
  - reflexivity.
  - unfold createTable. f_equal. cbn [table_name columns map].
    do 2 f_equal. rewrite <- join_entries_merge. do 2 f_equal.
    unfold makeColumnSqlEntry. cbn [name type isPrimaryKey allowNull].
    rewrite !append_empty, !append_assoc. reflexivity.
Qed.

(** Property X11.  A column made by [TableDefinition.column] with its two
    optional arguments left out is nullable and no key, so that a table of
    such columns gives a statement with names and types only. *)
Theorem default_columns_have_no_suffix
    (t : string) (cols : list (string * ColumnType))
    (allowPreexisting : option bool) :
  createTable
    {| table_name := t;
       columns := map (fun nt => column (fst nt) (snd nt) None None) cols |}
    allowPreexisting
  = exec ("CREATE TABLE "
          ++ (if or_default true allowPreexisting then "IF NOT EXISTS " else "")
          ++ t ++ " ("
          ++ join "," (map (fun nt => fst nt ++ " " ++ ColumnType_value (snd nt)) cols)
          ++ ");").
Proof.
  unfold createTable. f_equal. cbn [table_name columns].
  rewrite map_map.
  rewrite (map_ext _ (fun nt => fst nt ++ " " ++ ColumnType_value (snd nt))).
  - now rewrite !append_assoc.
  - intros [n ty]. unfold makeColumnSqlEntry, column.
    cbn [name type isPrimaryKey allowNull fst snd].
    now rewrite !append_empty.
Qed.

End BuilderEdges.

(** ** Blocks of calls inside a session *)

Section Blocks.

Import ForzenSqliteDb.

Variable eng : Engine.

Lemma session_kept_refl (h : Handle) (w : World eng) :
  session_kept h w (quiet eng (Some h) w).
Proof.
  repeat split. exists []. now rewrite app_nil_r.
Qed.

Lemma session_kept_trans (h : Handle) (w w1 : World eng) (s2 : State eng) :
  session_kept h w (quiet eng (Some h) w1) ->
  session_kept h w1 s2 ->
  session_kept h w s2.
Proof.
  intros (_ & _ & Hl & Hn & evs & Ht & Hf) (Hd & Hp & Hl' & Hn' & evs' & Ht' & Hf').
  simpl in Hl, Hn, Ht.
  repeat split; try congruence.
  exists (evs ++ evs')%list. split.
  - now rewrite Ht', Ht, app_assoc.
  - now rewrite calls_made_app, forallb_app, Hf, Hf'.
Qed.

(** One awaited call, made while connection [h] is held. *)
Lemma await_call_keeps_session (c : DbCall) (h : Handle) (w : World eng) :
  session_kept h w (snd (interp eng (await_call c) (quiet eng (Some h) w))).
Proof.
  destruct c; unfold await_call, session_kept; unfold_methods; cbn;
    engine_case; unfold observe, set_world, emit; cbn;
    repeat split; rewrite <- ?app_assoc;
    (eexists; split; [reflexivity|cbn; now rewrite Nat.eqb_refl]).
Qed.

Lemma await_calls_keep_session (cs : list DbCall) (h : Handle) (w : World eng) :
  session_kept h w (snd (interp eng (await_calls cs) (quiet eng (Some h) w))).
Proof.
  revert w. induction cs as [|c cs IH]; intros w; [apply session_kept_refl|].
  cbn [await_calls]. rewrite interp_bind.
  pose proof (await_call_keeps_session c h w) as H1.
  destruct (interp eng (await_call c) (quiet eng (Some h) w)) as [[[]|e] s1];
    [|exact H1].
  destruct s1 as [d1 w1 p1]. simpl in H1.
  assert (d1 = Some h /\ p1 = []) as [-> ->] by (destruct H1 as (? & ? & _); auto).
  apply (session_kept_trans h w w1); [exact H1|apply IH].
Qed.

(** Property X12.  Inside a session, a block that awaits any calls of
    [exec], [run], [get], [all], [createTable] and [insert] one after the
    other keeps the session's connection, whatever the driver answers:
    when the block ends or raises the handle holds the same connection,
    no connection was opened or closed, and every call that reached the
    driver was a statement on that connection. *)
Theorem block_of_calls_keeps_the_session
    (cs : list DbCall) (h : Handle) (w : World eng) :
  let s' := snd (interp eng (await_calls cs) (quiet eng (Some h) w)) in
  db s' = Some h
  /\ live (world s') = live w
  /\ exists evs,
       trace (world s') = (trace w ++ evs)%list
       /\ forallb (is_statement_on h) (calls_made evs) = true
       /\ filter is_open (calls_made evs) = []
       /\ filter is_close (calls_made evs) = [].
Proof.
  intros s'. subst s'.
  destruct (await_calls_keep_session cs h w) as (Hd & _ & Hl & _ & evs & Ht & Hf).
  repeat split; auto. exists evs. repeat split; auto.
  - induction (calls_made evs) as [|c l IH]; [reflexivity|].
    simpl in Hf. apply andb_prop in Hf as [Hc Hl']. destruct c; simpl in *; auto; discriminate.
  - induction (calls_made evs) as [|c l IH]; [reflexivity|].
    simpl in Hf. apply andb_prop in Hf as [Hc Hl']. destruct c; simpl in *; auto; discriminate.
Qed.





End Blocks.

(** ** The example scripts *)

Section Scripts.

Variable eng : Engine.

(** A rejected statement contradicts [statements_resolve]. *)
Ltac resolves H :=
  match goal with
  | E : e_exec ?e ?h ?q ?x = (Rejected _, _) |- _ =>
      let Hr := fresh in
      pose proof (proj1 H h q x) as Hr; rewrite E in Hr; discriminate Hr
  | E : e_run ?e ?h ?q ?a ?x = (Rejected _, _) |- _ =>
      let Hr := fresh in
      pose proof (proj1 (proj2 H) h q a x) as Hr; rewrite E in Hr; discriminate Hr
  | E : e_rows ?e ?h ?q ?a ?x = (Rejected _, _) |- _ =>
      let Hr := fresh in
      pose proof (proj2 (proj2 H) h q a x) as Hr; rewrite E in Hr; discriminate Hr
  end.

Lemma event_loop_round (n : nat) (s : State eng) :
  event_loop (S n) s
  = match pending s with
    | [] => s
    | _ :: _ => event_loop n (deliver_pending eng s)
    end.
Proof.
  reflexivity.
Qed.

(** One round of the event loop in hypothesis [H], with the case analysis
    on the answer of the engine it waits for. *)
Ltac round_in H :=
  rewrite event_loop_round in H; cbn -[event_loop] in H;
  try match type of H with
  | context [e_open ?e ?f ?x] =>
      destruct (e_open e f x) as [[[]|?] ?] eqn:?
  | context [e_close ?e ?h ?x] =>
      destruct (e_close e h x) as [[[]|?] ?] eqn:?
  | context [e_exec ?e ?h ?q ?x] =>
      destruct (e_exec e h q x) as [[[]|?] ?] eqn:?
  | context [e_run ?e ?h ?q ?a ?x] =>
      destruct (e_run e h q a x) as [[?|?] ?] eqn:?
  | context [e_rows ?e ?h ?q ?a ?x] =>
      destruct (e_rows e h q a x) as [[?|?] ?] eqn:?
  end; cbn -[event_loop] in H.

(** Property X15.  The first example script, run in a fresh process on any
    engine, is over after four rounds of the event loop; it has called
    [open] exactly once, and the only connection that can be left open is
    the one the handle still holds.  When nothing fails it sends its two
    statements on that connection, in order, closes it and ends Closed. *)
Theorem example1_main_runs (e : Env eng) :
  let s := event_loop 4 (snd (interp eng Example1.main (initial eng e))) in
  pending s = []
  /\ filter is_open (calls_made (trace (world s))) = [COpen ("./" ++ DB_NAME)]
  /\ live (world s) = match db s with Some h => [h] | None => [] end
  /\ (opens_reliably eng -> closes_reliably eng -> statements_resolve eng ->
      db s = None
      /\ calls_made (trace (world s))
         = [COpen ("./" ++ DB_NAME);
            CExec 0 Example1.create_my_table;
            CRun 0 Example1.insert_my_table [VNum 123; VStr "abc"];
            CClose 0]).
Proof.
  intros s.
  assert (Hs : s = event_loop 4 (snd (interp eng Example1.main (initial eng e))))
    by reflexivity.
  clearbody s.
  unfold Example1.main, Example1.block in Hs. unfold_methods.
  unfold initial in Hs. cbn -[event_loop] in Hs.
  repeat round_in Hs; cbn in Hs; subst s;
    (split; [reflexivity|]); (split; [reflexivity|]);
    (split; [reflexivity|]); intros Ho Hc Hr;
    try reliable Ho; try reliable Hc; try resolves Hr.
  split; reflexivity.
Qed.

(** Property X16.  The second example script, on any engine and with any
    formatting of the row it prints, is over after seven rounds of the
    event loop, having called [open] exactly once.  When nothing fails, the
    statements it sends, all on that one connection, are its two raw
    statements, the [CREATE TABLE] built from its table descriptor, the
    [INSERT] built from its entity with the two values as arguments, and
    its query; it prints one line and ends Closed. *)
Theorem example2_main_runs (inspect : option Row -> string) (e : Env eng) :
  let s := event_loop 7 (snd (interp eng (Example2.main inspect) (initial eng e))) in
  pending s = []
  /\ filter is_open (calls_made (trace (world s))) = [COpen ("./" ++ DB_NAME)]
  /\ live (world s) = match db s with Some h => [h] | None => [] end
  /\ (opens_reliably eng -> closes_reliably eng -> statements_resolve eng ->
      db s = None
      /\ calls_made (trace (world s))
         = [COpen ("./" ++ DB_NAME);
            CExec 0 Example1.create_my_table;
            CRun 0 Example1.insert_my_table [VNum 123; VStr "abc"];
            CExec 0 "CREATE TABLE IF NOT EXISTS my_table_2 (foo INTEGER,bar TEXT);";
            CRun 0 "INSERT INTO my_table_2 ( foo,bar ) VALUES (?,?)"
                 [VNum 1337; VStr "potato"];
            CGet 0 "SELECT * FROM my_table" [];
            CClose 0]
      /\ exists row, lines_logged (trace (world s)) = [inspect row]).
Proof.
  intros s.
  assert (Hs : s = event_loop 7 (snd (interp eng (Example2.main inspect)
                                        (initial eng e))))
    by reflexivity.
  clearbody s.
  unfold Example2.main, Example2.block in Hs. unfold_methods.
  unfold initial in Hs. cbn -[event_loop] in Hs.
  repeat round_in Hs; cbn in Hs; subst s;
    (split; [reflexivity|]); (split; [reflexivity|]);
    (split; [reflexivity|]); intros Ho Hc Hr;
    try reliable Ho; try reliable Hc; try resolves Hr.
  split; [reflexivity|]. split; [reflexivity|]. eexists. reflexivity.
Qed.

End Scripts.

(** ** The properties above on the small engines *)

(** A fresh process on the toy engine: connection 0 is opened and closed. *)
Lemma beginSession_endSession_round_trip_witness :
  opens_reliably Toy.engine
  /\ closes_reliably Toy.engine
  /\ fresh_handles Toy.fresh_world
  /\ closed_as_in Toy.fresh_world
       (snd (interp Toy.engine
               (ForzenSqliteDb.beginSession ;; ForzenSqliteDb.endSession)
               (quiet Toy.engine None Toy.fresh_world)))
  /\ calls_made
       (trace (world (snd (interp Toy.engine
                             (ForzenSqliteDb.beginSession ;; ForzenSqliteDb.endSession)
                             (quiet Toy.engine None Toy.fresh_world)))))
     = [COpen "./__FORZENDB__.db"; CClose 0].
Proof.
  assert (Ho : opens_reliably Toy.engine) by (intros f e; reflexivity).
  assert (Hc : closes_reliably Toy.engine) by (intros h e; reflexivity).
  assert (Hf : fresh_handles Toy.fresh_world) by (intros h []).
  destruct (beginSession_endSession_round_trip Toy.engine Toy.fresh_world Ho Hc Hf)
    as (_ & Hclosed & _ & Hcalls & _).
  split; [exact Ho|]. split; [exact Hc|]. split; [exact Hf|].
  split; [exact Hclosed|exact Hcalls].
Defined.

(** The file cannot be opened: the block of the README is not started. *)
Lemma session_does_not_start_when_open_fails_witness :
  e_open Offline.engine ("./" ++ DB_NAME) (env Offline.fresh_world)
  = (Rejected "SQLITE_CANTOPEN", Offline.no_rows)
  /\ fst (interp Offline.engine (ForzenSqliteDb.session Toy.readme_block)
            (quiet Offline.engine None Offline.fresh_world))
     = Raised (DriverError "SQLITE_CANTOPEN")
  /\ calls_made
       (trace (world (snd (interp Offline.engine
                             (ForzenSqliteDb.session Toy.readme_block)
                             (quiet Offline.engine None Offline.fresh_world)))))
     = [COpen "./__FORZENDB__.db"].
Proof.
  destruct (session_does_not_start_when_open_fails
              Offline.engine Offline.fresh_world None "SQLITE_CANTOPEN"
              Offline.no_rows Toy.readme_block eq_refl) as [_ H].
  split; [reflexivity|]. rewrite H. split; reflexivity.
Defined.

(** The file cannot be opened: [all] raises, having logged its query. *)
Lemma statement_fails_when_open_fails_witness :
  e_open Offline.engine ("./" ++ DB_NAME) (env Offline.fresh_world)
  = (Rejected "SQLITE_CANTOPEN", Offline.no_rows)
  /\ fst (interp Offline.engine (ForzenSqliteDb.all "SELECT * FROM my_table" None)
            (quiet Offline.engine None Offline.fresh_world))
     = Raised (DriverError "SQLITE_CANTOPEN")
  /\ lines_logged
       (trace (world (snd (interp Offline.engine
                             (ForzenSqliteDb.all "SELECT * FROM my_table" None)
                             (quiet Offline.engine None Offline.fresh_world)))))
     = ["DATABASE ERROR FOR QUERY:" ++ LF ++ "SELECT * FROM my_table"].
Proof.
  destruct (statement_fails_when_open_fails
              Offline.engine Offline.fresh_world "SELECT * FROM my_table" None
              "SQLITE_CANTOPEN" Offline.no_rows eq_refl) as (_ & _ & _ & H).
  split; [reflexivity|]. rewrite H. split; reflexivity.
Defined.


(** A rejected statement is answered the same with and without a session. *)
Lemma implicit_session_is_transparent_witness :
  closes_reliably Toy.engine
  /\ fst (interp Toy.engine (ForzenSqliteDb.exec "NOT SQL")
            (quiet Toy.engine None Toy.fresh_world))
     = fst (interp Toy.engine
              (ForzenSqliteDb.beginSession ;; ForzenSqliteDb.exec "NOT SQL")
              (quiet Toy.engine None Toy.fresh_world)).
Proof.
  assert (Hc : closes_reliably Toy.engine) by (intros h e; reflexivity).
  destruct (implicit_session_is_transparent Toy.engine Toy.fresh_world
              "NOT SQL" None Hc) as (H & _).
  split; [exact Hc|exact H].
Defined.

(** The table and the entity of the example script, outside a session. *)
Lemma builders_follow_the_session_policy_witness :
  closes_reliably Toy.engine
  /\ fresh_handles Toy.fresh_world
  /\ closed_as_in Toy.fresh_world
       (snd (interp Toy.engine (ForzenSqliteDb.createTable Toy.table (Some true))
               (quiet Toy.engine None Toy.fresh_world)))
  /\ closed_as_in Toy.fresh_world
       (snd (interp Toy.engine (ForzenSqliteDb.insert Toy.testObj)
               (quiet Toy.engine None Toy.fresh_world))).
Proof.
  assert (Hc : closes_reliably Toy.engine) by (intros h e; reflexivity).
  assert (Hf : fresh_handles Toy.fresh_world) by (intros h []).
  destruct (builders_follow_the_session_policy Toy.engine Toy.fresh_world 0
              Toy.table (Some true) Toy.testObj Hc Hf) as (H1 & H2 & _).
  split; [exact Hc|]. split; [exact Hf|]. split; [exact H1|exact H2].
Defined.

(** An entity without [tableName]. *)
Lemma insert_without_tableName_witness :
  well_formed [("foo", VNum 1337); ("bar", VStr "potato")]
  /\ ~ In "tableName" (keys [("foo", VNum 1337); ("bar", VStr "potato")])
  /\ ForzenSqliteDb.insert [("foo", VNum 1337); ("bar", VStr "potato")]
     = (ForzenSqliteDb.run "INSERT INTO undefined ( foo,bar ) VALUES (?,?)"
          (Some [VNum 1337; VStr "potato"]) ;;
        Ret tt).
Proof.
  assert (N : well_formed [("foo", VNum 1337); ("bar", VStr "potato")]).
  { unfold well_formed. simpl. repeat constructor; simpl; intuition discriminate. }
  assert (M : ~ In "tableName" (keys [("foo", VNum 1337); ("bar", VStr "potato")])).
  { simpl. intuition discriminate. }
  split; [exact N|]. split; [exact M|].
  apply (insert_without_tableName _ N M).
Defined.



(** The first script on the engine on which nothing fails. *)
Lemma example1_main_runs_witness :
  opens_reliably Obliging.engine
  /\ closes_reliably Obliging.engine
  /\ statements_resolve Obliging.engine
  /\ db (event_loop 4 (snd (interp Obliging.engine Example1.main
                              (initial Obliging.engine Obliging.no_rows))))
     = None.
Proof.
  assert (Ho : opens_reliably Obliging.engine) by (intros f e; reflexivity).
  assert (Hc : closes_reliably Obliging.engine) by (intros h e; reflexivity).
  assert (Hs : statements_resolve Obliging.engine).
  { split; [|split]; intros; simpl; try reflexivity.
    destruct (Toy.is_insert sql); reflexivity. }
  destruct (example1_main_runs Obliging.engine Obliging.no_rows)
    as (_ & _ & _ & H).
  destruct (H Ho Hc Hs) as [Hd _].
  split; [exact Ho|]. split; [exact Hc|]. split; [exact Hs|exact Hd].
Defined.

(** The second script on the engine on which nothing fails. *)
Lemma example2_main_runs_witness :
  opens_reliably Obliging.engine
  /\ closes_reliably Obliging.engine
  /\ statements_resolve Obliging.engine
  /\ db (event_loop 7 (snd (interp Obliging.engine
                              (Example2.main (fun _ => "row"))
                              (initial Obliging.engine Obliging.no_rows))))
     = None.
Proof.
  assert (Ho : opens_reliably Obliging.engine) by (intros f e; reflexivity).
  assert (Hc : closes_reliably Obliging.engine) by (intros h e; reflexivity).
  assert (Hs : statements_resolve Obliging.engine).
  { split; [|split]; intros; simpl; try reflexivity.
    destruct (Toy.is_insert sql); reflexivity. }
  destruct (example2_main_runs Obliging.engine (fun _ => "row") Obliging.no_rows)
    as (_ & _ & _ & H).
  destruct (H Ho Hc Hs) as [Hd _].
  split; [exact Ho|]. split; [exact Hc|]. split; [exact Hs|exact Hd].
Defined.

Section Order.

Import ForzenSqliteDb.

Variable eng : Engine.

Lemma createTable_sends (t : TableDefinition) (allow : option bool) :
  createTable t allow
  = exec ("CREATE TABLE "
          ++ (if or_default true allow then "IF NOT EXISTS " else "")
          ++ table_name t ++ " ("
          ++ join "," (map makeColumnSqlEntry (columns t)) ++ ");").
Proof.
  unfold createTable. f_equal. now rewrite !append_assoc.
Qed.

Lemma insert_sends (entity : JsObject) :
  insert entity
  = (run (Spec.insert_sql (to_string (lookup entity "tableName"))
            (keys (Spec.column_fields entity)))
         (Some (map (lookup entity) (keys (Spec.column_fields entity)))) ;;
     Ret tt).
Proof.
  unfold insert, Spec.insert_sql, Spec.column_fields.
  now rewrite !keys_filter, placeholders.
Qed.

(** One awaited call inside a session: what reaches the driver. *)
Lemma await_call_sends (c : DbCall) (h : Handle) (w : World eng) :
  exists w1,
    snd (interp eng (await_call c) (quiet eng (Some h) w))
    = quiet eng (Some h) w1
    /\ calls_made (trace w1) = (calls_made (trace w) ++ [sent_call h c])%list
    /\ (statements_resolve eng ->
        fst (interp eng (await_call c) (quiet eng (Some h) w)) = Returned tt).
Proof.
  destruct c; unfold await_call, sent_call;
    rewrite ?createTable_sends, ?insert_sends;
    unfold_methods; cbn; engine_case; unfold observe, set_world, emit; cbn;
    eexists; (split; [reflexivity|]); cbn;
    (split; [rewrite !calls_made_app; cbn; now rewrite <- ?app_assoc, ?app_nil_r|]);
    intros Hs; try reflexivity;
    match goal with
    | E : e_exec ?e ?h ?q ?x = (Rejected _, _) |- _ =>
        let Hr := fresh in
        pose proof (proj1 Hs h q x) as Hr; rewrite E in Hr; discriminate Hr
    | E : e_run ?e ?h ?q ?a ?x = (Rejected _, _) |- _ =>
        let Hr := fresh in
        pose proof (proj1 (proj2 Hs) h q a x) as Hr; rewrite E in Hr; discriminate Hr
    | E : e_rows ?e ?h ?q ?a ?x = (Rejected _, _) |- _ =>
        let Hr := fresh in
        pose proof (proj2 (proj2 Hs) h q a x) as Hr; rewrite E in Hr; discriminate Hr
    end.
Qed.

(** Property X17.  Inside a session the calls of a block reach the driver
    in program order, one driver call for each call of a method and with
    the statement and the arguments that call was given or built, up to
    and including the first call that raises; nothing is sent after it.
    Either every call of the block returns, the block returns and every
    call has been sent; or the block splits into the calls that return, the
    first call that raises and the calls after it: the block raises what
    that call raised, in the state that call left, and the driver has been
    sent the calls before it and that call, and no other.  When no
    statement is rejected every call is sent and the block returns. *)
Theorem calls_are_sent_in_order (cs : list DbCall) (h : Handle) (w : World eng) :
  let s := quiet eng (Some h) w in
  let r := interp eng (await_calls cs) s in
  ((all_return cs s
    /\ r = (Returned tt, after_awaited cs s)
    /\ calls_made (trace (world (snd r)))
       = (calls_made (trace w) ++ map (sent_call h) cs)%list)
   \/ (exists pre c post e,
         cs = (pre ++ c :: post)%list
         /\ all_return pre s
         /\ fst (interp eng (await_call c) (after_awaited pre s)) = Raised e
         /\ r = interp eng (await_call c) (after_awaited pre s)
         /\ calls_made (trace (world (snd r)))
            = (calls_made (trace w) ++ map (sent_call h) (pre ++ [c]))%list))
  /\ (statements_resolve eng -> fst r = Returned tt).
Proof.
  revert w. induction cs as [|c cs IH]; intros w s r; subst s r.
  - split; [left|reflexivity]. cbn. rewrite app_nil_r. repeat split.
  - cbn [await_calls]. rewrite interp_bind.
    destruct (await_call_sends c h w) as (w1 & Hs1 & Hc1 & Hr1).
    destruct (interp eng (await_call c) (quiet eng (Some h) w))
      as [[[]|e] s1] eqn:E; simpl in Hs1, Hr1; subst s1.
    + destruct (IH w1)
        as [[(Hall & Hr & Hc)|(pre & c' & post & e & Hcs & Hall & He & Hr & Hc)]
            Hres].
      * split; [left|exact Hres].
        cbn [all_return after_awaited fold_left]. rewrite E. cbn [fst snd].
        split; [split; [reflexivity|exact Hall]|].
        split; [exact Hr|].
        rewrite Hc, Hc1. cbn [map]. now rewrite <- app_assoc.
      * split; [right|exact Hres].
        exists (c :: pre), c', post, e.
        cbn [all_return after_awaited fold_left]. rewrite E. cbn [fst snd].
        split; [now rewrite Hcs|].
        split; [split; [reflexivity|exact Hall]|].
        split; [exact He|]. split; [exact Hr|].
        rewrite Hc, Hc1. cbn [map app]. now rewrite <- app_assoc.
    + split.
      * right. exists [], c, cs, e.
        cbn [all_return after_awaited fold_left app map]. rewrite E.
        cbn [fst snd world]. repeat split. exact Hc1.
      * intros Hs. specialize (Hr1 Hs). discriminate Hr1.
Qed.

End Order.

(** Three calls on the toy engine, the second rejected: the third is not
    sent. *)
Example calls_are_sent_in_order_example :
  calls_made
    (trace (world (snd (interp Toy.engine
       (await_calls [DCreateTable Toy.table None; DExec "NOT SQL";
                     DInsert Toy.testObj])
       (quiet Toy.engine (Some 0) Toy.open_world)))))
  = [CExec 0 "CREATE TABLE IF NOT EXISTS my_table_2 (foo INTEGER,bar TEXT);";
     CExec 0 "NOT SQL"].
Proof.
  reflexivity.
Qed.
